(** * Payment verification relay: [server.js] and [api/verify-payment.js]

    A shallow embedding of the two deployment shapes of the Paystack
    verification relay (the long-running Express route and the serverless
    handler), of the [amountsMatch] helper both of them carry, and of the
    part of the JavaScript runtime they rely on: IEEE 754 binary64 numbers,
    [Number(...)], [Math.round], truthiness, [toUpperCase] and the
    exceptions those operations raise.

    Conventions.
    - A JavaScript number is a [spec_float] of the standard library at
      precision 53 and maximal exponent 1024, so products and quotients are
      rounded exactly as the engine rounds them.
    - A JavaScript string is a [string] holding the UTF-8 bytes of its
      text. [toUpperCase] is computed on ASCII text; on text with other
      characters it is the engine's, whose Unicode tables are left open.
    - An object produced by [JSON.parse] is a finite map from property
      names to values.
    - [console.log], [console.warn] and [console.error] have no effect on
      the response and are left out. *)

From Stdlib Require Import ZArith QArith Qround Lia Lqa List Bool Ascii String.
From Stdlib Require Import Floats.SpecFloat.
From stdpp Require Import gmap strings pretty.

Local Open Scope Z_scope.

(* ================================================================= *)
(** * JavaScript numbers *)

Module JSNumber.

Definition number : Type := spec_float.

Definition prec : Z := 53.
Definition emax : Z := 1024.

Definition NaN : number := S754_nan.
Definition pos_zero : number := S754_zero false.
Definition neg_zero : number := S754_zero true.
Definition Infinity : number := S754_infinity false.

(** The Number value of a mathematical integer (a numeric literal
    without fraction), rounded to nearest, ties to even. *)
Definition of_Z (z : Z) : number := binary_normalize prec emax z 0 false.

(** The Number value of the rational [±n / d]. *)
Definition of_ratio (s : bool) (n d : positive) : number :=
  SFdiv prec emax (S754_finite s n 0) (S754_finite false d 0).

(** [x * y] and [x / y]. *)
Definition mul (x y : number) : number := SFmul prec emax x y.
Definition div (x y : number) : number := SFdiv prec emax x y.

(** [x === y] on numbers: false on NaN, [+0 === -0]. *)
Definition strict_eq (x y : number) : bool := SFeqb x y.

(** [Number.isNaN] *)
Definition isNaN (x : number) : bool :=
  match x with S754_nan => true | _ => false end.

Definition is_finite (x : number) : bool :=
  match x with S754_zero _ | S754_finite _ _ _ => true | _ => false end.

Definition is_zero (x : number) : bool :=
  match x with S754_zero _ => true | _ => false end.

(** The mathematical value of a finite number (0 on NaN and infinities). *)
Definition Qval (x : number) : Q :=
  match x with
  | S754_finite s m e =>
      let sm := if s then Z.neg m else Z.pos m in
      if 0 <=? e then inject_Z (sm * 2 ^ e)
      else Qmake sm (Z.to_pos (2 ^ (- e)))
  | _ => 0%Q
  end.

(** [Math.round]: a number that is not finite, or a zero, is returned
    as it is; otherwise the result is the integer closest to the
    argument, the one closer to +∞ in case of a tie, that is
    [floor (x + 1/2)]; a zero result keeps the sign of the argument
    ([Math.round(-0.2)] is [-0], [Math.round(0.2)] is [+0]). *)
Definition Math_round (x : number) : number :=
  match x with
  | S754_finite s _ _ =>
      let r := Qfloor (Qval x + (1 # 2)) in
      if r =? 0 then S754_zero s else of_Z r
  | _ => x
  end.

End JSNumber.
Import JSNumber.

(* ================================================================= *)
(** * JavaScript strings *)

Module JSString.

Definition code (c : ascii) : Z := Z.of_N (N_of_ascii c).

Definition bytes (s : string) : list Z := map code (list_ascii_of_string s).

Definition in_range (lo hi n : Z) : bool := (lo <=? n) && (n <=? hi).

(** ASCII text: every byte is below 128. *)
Fixpoint is_ascii (s : string) : bool :=
  match s with
  | EmptyString => true
  | String c r => (code c <? 128) && is_ascii r
  end.

(** [String.prototype.toUpperCase] on ASCII text: the letters [a-z]
    become [A-Z], every other character stays. *)
Definition upper_ascii (c : ascii) : ascii :=
  let n := code c in
  if in_range 97 122 n then ascii_of_N (Z.to_N (n - 32)) else c.

Fixpoint upper_ascii_text (s : string) : string :=
  match s with
  | EmptyString => EmptyString
  | String c r => String (upper_ascii c) (upper_ascii_text r)
  end.

(** [encodeURIComponent] on a string: the unreserved characters
    [A-Z a-z 0-9 - _ . ! ~ * ' ( )] are kept, every other byte of the
    UTF-8 encoding becomes [%XX]. *)
Definition unreserved (n : Z) : bool :=
  in_range 65 90 n || in_range 97 122 n || in_range 48 57 n
  || existsb (Z.eqb n) [45; 95; 46; 33; 126; 42; 39; 40; 41].

Definition hex_digit (d : Z) : ascii :=
  ascii_of_N (Z.to_N (if d <? 10 then 48 + d else 55 + d)).

Fixpoint percent_encode (s : string) : string :=
  match s with
  | EmptyString => EmptyString
  | String c r =>
      let n := code c in
      if unreserved n then String c (percent_encode r)
      else String "%" (String (hex_digit (n / 16))
             (String (hex_digit (n mod 16)) (percent_encode r)))
  end.

(** ** [StringToNumber] (ECMA-262, StringNumericLiteral) *)

(** Length in bytes of the white space or line terminator character at
    the head of a byte list, 0 when there is none: TAB, LF, VT, FF, CR,
    SP, U+00A0, U+1680, U+2000..U+200A, U+2028, U+2029, U+202F, U+205F,
    U+3000, U+FEFF. *)
Definition ws_head (l : list Z) : nat :=
  match l with
  | c :: r =>
      if in_range 9 13 c || (c =? 32) then 1%nat
      else match c, r with
           | 194, 160 :: _ => 2%nat
           | 225, 154 :: 128 :: _ => 3%nat
           | 226, 128 :: b :: _ =>
               if in_range 128 138 b || existsb (Z.eqb b) [168; 169; 175]
               then 3%nat else 0%nat
           | 226, 129 :: 159 :: _ => 3%nat
           | 227, 128 :: 128 :: _ => 3%nat
           | 239, 187 :: 191 :: _ => 3%nat
           | _, _ => 0%nat
           end
  | [] => 0%nat
  end.

(** The same, for the character at the end of a list given reversed: one
    byte, or three bytes that are one character whole. *)
Definition ws_last (rl : list Z) : nat :=
  match rl with
  | c :: _ =>
      if in_range 9 13 c || (c =? 32) then 1%nat
      else match rl with
           | b3 :: b2 :: b1 :: _ =>
               if Nat.eqb (ws_head [b1; b2; b3]) 3 then 3%nat else 0%nat
           | _ => 0%nat
           end
  | [] => 0%nat
  end.

(** And with the two bytes of U+00A0. *)
Definition ws_last2 (rl : list Z) : nat :=
  match ws_last rl with
  | O => match rl with
         | b2 :: b1 :: _ =>
             if Nat.eqb (ws_head [b1; b2]) 2 then 2%nat else 0%nat
         | _ => 0%nat
         end
  | n => n
  end.

Fixpoint trim_with (f : list Z -> nat) (fuel : nat) (l : list Z) : list Z :=
  match fuel with
  | O => l
  | S fuel' =>
      match f l with
      | O => l
      | n => trim_with f fuel' (skipn n l)
      end
  end.

Definition trim (l : list Z) : list Z :=
  let l1 := trim_with ws_head (List.length l) l in
  rev (trim_with ws_last2 (List.length l1) (rev l1)).

Definition digit_of (base c : Z) : option Z :=
  let d := if in_range 48 57 c then c - 48
           else if in_range 97 122 c then c - 87
           else if in_range 65 90 c then c - 55
           else base in
  if d <? base then Some d else None.

(** Reads the longest run of digits: the accumulated value, the number of
    digits read, and what follows. *)
Fixpoint span_digits (base : Z) (l : list Z) (acc n : Z) : Z * Z * list Z :=
  match l with
  | c :: r =>
      match digit_of base c with
      | Some d => span_digits base r (base * acc + d) (n + 1)
      | None => (acc, n, l)
      end
  | [] => (acc, n, l)
  end.

(** ExponentPart, optional: the decimal exponent, [None] on junk. *)
Definition exponent_part (l : list Z) : option Z :=
  match l with
  | [] => Some 0
  | c :: r =>
      if (c =? 101) || (c =? 69) then
        let '(neg, r') :=
          match r with
          | 43 :: r' => (false, r')
          | 45 :: r' => (true, r')
          | _ => (false, r)
          end in
        match span_digits 10 r' 0 0 with
        | (x, n, []) => if n =? 0 then None else Some (if neg then - x else x)
        | _ => None
        end
      else None
  end.

(** StrUnsignedDecimalLiteral without [Infinity]: digits and a decimal
    exponent, the value being [digits * 10 ^ exponent]. *)
Definition unsigned_decimal (l : list Z) : option (Z * Z) :=
  let '(i, ni, r1) := span_digits 10 l 0 0 in
  match r1 with
  | 46 :: r2 =>
      let '(f, nf, r3) := span_digits 10 r2 i 0 in
      if ni + nf =? 0 then None
      else match exponent_part r3 with
           | Some x => Some (f, x - nf)
           | None => None
           end
  | _ =>
      if ni =? 0 then None
      else match exponent_part r1 with
           | Some x => Some (i, x)
           | None => None
           end
  end.

Definition infinity_literal : list Z := [73; 110; 102; 105; 110; 105; 116; 121].

(** The Number value of [±m * 10 ^ x]. *)
Definition of_decimal (neg : bool) (m x : Z) : number :=
  match m with
  | Z.pos p =>
      if 0 <=? x then of_Z ((if neg then Z.neg p else Z.pos p) * 10 ^ x)
      else of_ratio neg p (Z.to_pos (10 ^ (- x)))
  | _ => S754_zero neg
  end.

Definition signed_decimal (neg : bool) (l : list Z) : number :=
  if bool_decide (l = infinity_literal) then S754_infinity neg
  else match unsigned_decimal l with
       | Some (m, x) => of_decimal neg m x
       | None => NaN
       end.

Definition non_decimal (base : Z) (l : list Z) : number :=
  match span_digits base l 0 0 with
  | (v, n, []) => if n =? 0 then NaN else of_Z v
  | _ => NaN
  end.

Definition StringToNumber (s : string) : number :=
  match trim (bytes s) with
  | [] => pos_zero
  | (48 :: c :: r) as l =>
      if (c =? 120) || (c =? 88) then non_decimal 16 r
      else if (c =? 111) || (c =? 79) then non_decimal 8 r
      else if (c =? 98) || (c =? 66) then non_decimal 2 r
      else signed_decimal false l
  | 43 :: r => signed_decimal false r
  | 45 :: r => signed_decimal true r
  | l => signed_decimal false l
  end.

End JSString.
Import JSString.

(* ================================================================= *)
(** * JavaScript values, as [JSON.parse] builds them *)

#[warnings="-register-all"]
Inductive value : Type :=
| VUndefined
| VNull
| VBool (b : bool)
| VNum (n : number)
| VStr (s : string)
| VArr (l : list value)
| VObj (o : gmap string value).

(** Errors as the [catch] blocks see them: [err.response?.data] (absent
    when [err.response] is) and [err.message]. *)
Record js_error : Type := {
  err_response : option value;
  err_message : value
}.

(** The outcome of evaluating an expression. *)
Inductive completion (A : Type) : Type :=
| Normal (a : A)
| Throw (e : js_error).
Arguments Normal {A} a.
Arguments Throw {A} e.

#[export] Instance completion_ret : MRet completion := fun _ a => Normal a.
#[export] Instance completion_bind : MBind completion := fun _ _ f c =>
  match c with
  | Normal a => f a
  | Throw e => Throw e
  end.

(** The [TypeError]s the handlers can run into: destructuring
    [operand], which is [undefined] or [null]; calling what is not a
    function; converting an object that has no primitive value. *)
Inductive type_error : Type :=
| CannotDestructure (operand : value)
| NotAFunction (callee : string)
| NoPrimitiveValue.

(** What the engine leaves open here: the digits [Number::toString]
    prints, the wording of the messages of its [TypeError]s, and
    [toUpperCase] on text that is not ASCII (the Unicode case tables). *)
Class Runtime : Type := {
  NumberToString : number -> string;
  TypeError_message : type_error -> string;
  UnicodeToUpperCase : string -> string
}.

Section Conversions.
Context `{Runtime}.

Definition TypeError (k : type_error) : js_error :=
  {| err_response := None; err_message := VStr (TypeError_message k) |}.

(** Truthiness. *)
Definition ToBoolean (v : value) : bool :=
  match v with
  | VUndefined | VNull => false
  | VBool b => b
  | VNum n => negb (is_zero n || isNaN n)
  | VStr s => negb (String.eqb s "")
  | VArr _ | VObj _ => true
  end.

(** [typeof v === 'undefined' || v === null] *)
Definition is_nullish (v : value) : bool :=
  match v with
  | VUndefined | VNull => true
  | _ => false
  end.

(** [v === s] for a string literal [s]. *)
Definition strict_eq_string (v : value) (s : string) : bool :=
  match v with
  | VStr t => String.eqb t s
  | _ => false
  end.

(** [a || b] *)
Definition js_or (a b : value) : value := if ToBoolean a then a else b.

(** [v.k] on a value that is neither [null] nor [undefined]. The
    handlers read [reference], [email], [currency], [amount], [data] and
    [status]; none of them is a property of arrays, strings, numbers or
    booleans, nor of [Object.prototype]. *)
Definition get (v : value) (k : string) : value :=
  match v with
  | VObj o => default VUndefined (o !! k)
  | _ => VUndefined
  end.

Definition has_own (o : gmap string value) (k : string) : bool :=
  bool_decide (is_Some (o !! k)).

(** [ToString]. An array is joined with commas, [null] and [undefined]
    elements printing as the empty string. A parsed object holds no
    function: when it has a [toString] of its own, conversion to a
    primitive finds nothing to call and throws; otherwise
    [Object.prototype.toString] answers. *)
Fixpoint ToString (v : value) : completion string :=
  match v with
  | VUndefined => Normal "undefined"
  | VNull => Normal "null"
  | VBool b => Normal (if b then "true" else "false")
  | VNum n => Normal (NumberToString n)
  | VStr s => Normal s
  | VArr l =>
      (fix join (l : list value) : completion string :=
         let element x :=
           match x with
           | VUndefined | VNull => Normal ""
           | _ => ToString x
           end in
         match l with
         | [] => Normal ""
         | x :: r =>
             match r with
             | [] => element x
             | _ => s ← element x; t ← join r; Normal (s ++ "," ++ t)
             end
         end) l
  | VObj o =>
      if has_own o "toString" then Throw (TypeError NoPrimitiveValue)
      else Normal "[object Object]"
  end%string.

(** [Number(v)] *)
Definition Number (v : value) : completion number :=
  match v with
  | VUndefined => Normal NaN
  | VNull => Normal pos_zero
  | VBool b => Normal (if b then of_Z 1 else pos_zero)
  | VNum n => Normal n
  | VStr s => Normal (StringToNumber s)
  | VArr _ | VObj _ => s ← ToString v; Normal (StringToNumber s)
  end.

(** [encodeURIComponent(v)] *)
Definition encodeURIComponent (v : value) : completion string :=
  s ← ToString v; Normal (percent_encode s).

(** [String.prototype.toUpperCase] *)
Definition toUpperCase (s : string) : string :=
  if is_ascii s then upper_ascii_text s else UnicodeToUpperCase s.

(** [v.toUpperCase()], [callee] being the text of [v.toUpperCase]. *)
Definition call_toUpperCase (callee : string) (v : value) : completion string :=
  match v with
  | VStr s => Normal (toUpperCase s)
  | _ => Throw (TypeError (NotAFunction callee))
  end.

(** [const { reference, email, currency, amount } = v] *)
Definition destructure (v : value) : completion (value * value * value * value) :=
  if is_nullish v then Throw (TypeError (CannotDestructure v))
  else Normal (get v "reference", get v "email", get v "currency", get v "amount").

End Conversions.

(* ================================================================= *)
(** * Requests, responses and the outbound call *)

Record axios_request : Type := {
  url : string;
  request_headers : list (string * string);
  timeout : Z
}.

(** [await axios.get(...)] either resolves with a response, of which the
    handlers read [data] only, or rejects (network error, timeout, status
    outside 2xx). *)
Inductive axios_outcome : Type :=
| Resolved (data : value)
| Rejected (err : js_error).

(** A handler run: it answers, fails, or awaits the gateway once more. *)
Inductive prog (A : Type) : Type :=
| Ret (a : A)
| Raise (e : js_error)
| Await (rq : axios_request) (k : axios_outcome -> prog A).
Arguments Ret {A} a.
Arguments Raise {A} e.
Arguments Await {A} rq k.

Fixpoint prog_bind {A B : Type} (f : A -> prog B) (p : prog A) : prog B :=
  match p with
  | Ret a => f a
  | Raise e => Raise e
  | Await rq k => Await rq (fun o => prog_bind f (k o))
  end.

#[export] Instance prog_ret : MRet prog := fun _ a => Ret a.
#[export] Instance prog_mbind : MBind prog := fun _ _ f p => prog_bind f p.

(** [try { p } catch (err) { h err }] *)
Fixpoint try_catch {A : Type} (p : prog A) (h : js_error -> prog A) : prog A :=
  match p with
  | Ret a => Ret a
  | Raise e => h e
  | Await rq k => Await rq (fun o => try_catch (k o) h)
  end.

Definition lift {A : Type} (c : completion A) : prog A :=
  match c with
  | Normal a => Ret a
  | Throw e => Raise e
  end.

(** [await axios.get(url, { headers, timeout })], yielding [response.data]. *)
Definition axios_get (rq : axios_request) : prog value :=
  Await rq (fun o =>
    match o with
    | Resolved d => Ret d
    | Rejected e => Raise e
    end).

(** Running a handler against a gateway: the result and the outbound
    calls made, in order. *)
Fixpoint run {A : Type} (gateway : axios_request -> axios_outcome) (p : prog A)
  : completion A * list axios_request :=
  match p with
  | Ret a => (Normal a, [])
  | Raise e => (Throw e, [])
  | Await rq k =>
      let '(r, calls) := run gateway (k (gateway rq)) in (r, rq :: calls)
  end.

Inductive payload : Type :=
| Json (v : value)
| Text (s : string).

Record response : Type := {
  status : Z;
  headers : list (string * string);
  body : payload
}.

(** [res.status(code).json(v)]; [res.json(v)] is [json 200 v]. *)
Definition json (code : Z) (v : value) : response :=
  {| status := code; headers := []; body := Json v |}.

Definition object (fields : list (string * value)) : value :=
  VObj (list_to_map fields).

(* ================================================================= *)
(** * [server.js]: the Express application *)

Module Server.
Section Server.
Context `{Runtime}.

(** [function amountsMatch(clientAmountRaw, txAmount)] *)
Definition amountsMatch (clientAmountRaw txAmount : value) : completion bool :=
  if is_nullish clientAmountRaw then Normal true
  else
    parsed ← Number clientAmountRaw;
    if isNaN parsed then Normal false
    else
      let asSmallest := Math_round parsed in
      let asMainTimes100 := Math_round (mul parsed (of_Z 100)) in
      a ← Number txAmount;
      if strict_eq a asSmallest then Normal true
      else
        b ← Number txAmount;
        if strict_eq b asMainTimes100 then Normal true
        else Normal false.

(** The callback of [app.post('/verify-payment', ...)]. Express runs it
    for POST requests to that path only; [req_body] is [req.body] as the
    body parser left it. *)
Definition verify_payment (PAYSTACK_SECRET_KEY : string) (req_body : value)
  : prog response :=
  try_catch
    ('(reference, email, currency, amount) ← lift (destructure req_body);
     if negb (ToBoolean reference) then
       Ret (json 400 (object [("verified", VBool false);
                              ("error", VStr "Missing reference")]))
     else
       encoded ← lift (encodeURIComponent reference);
       let url := ("https://api.paystack.co/transaction/verify/" ++ encoded)%string in
       paystackData ← axios_get
         {| url := url;
            request_headers :=
              [("Authorization", ("Bearer " ++ PAYSTACK_SECRET_KEY)%string)];
            timeout := 10000 |};
       if negb (ToBoolean paystackData)
          || negb (ToBoolean (get paystackData "data")) then
         Ret (json 500 (object [("verified", VBool false);
                                ("error", VStr "Invalid response from Paystack")]))
       else
         let tx := get paystackData "data" in
         let verified := strict_eq_string (get tx "status") "success" in
         verified ←
           (if negb (is_nullish amount) then
              match_ ← lift (amountsMatch amount (get tx "amount"));
              Ret (if negb match_ then false else verified)
            else Ret verified);
         verified ←
           (if ToBoolean currency && ToBoolean (get tx "currency") then
              c ← lift (call_toUpperCase "currency.toUpperCase" currency);
              t ← lift (call_toUpperCase "tx.currency.toUpperCase"
                          (get tx "currency"));
              Ret (if negb (String.eqb c t) then false else verified)
            else Ret verified);
         Ret (json 200 (object [("verified", VBool verified); ("data", tx)])))
    (fun err =>
       Ret (json 500 (object
         [("verified", VBool false);
          ("error", js_or (default VUndefined (err_response err))
                          (err_message err))]))).

(** Start-up: without [PAYSTACK_SECRET_KEY] the process exits before it
    listens; otherwise the route is served. *)
Definition start (env_key : option string) : option (value -> prog response) :=
  match env_key with
  | Some key => if String.eqb key "" then None else Some (verify_payment key)
  | None => None
  end.

End Server.
End Server.

(* ================================================================= *)
(** * [api/verify-payment.js]: the serverless function *)

Module Serverless.
Section Serverless.
Context `{Runtime}.

Record request : Type := {
  method : string;
  req_body : value
}.

(** [function amountsMatch(clientAmountRaw, txAmount)] *)
Definition amountsMatch (clientAmountRaw txAmount : value) : completion bool :=
  if is_nullish clientAmountRaw then Normal true
  else
    parsed ← Number clientAmountRaw;
    if isNaN parsed then Normal false
    else
      let asSmallest := Math_round parsed in
      let asMainTimes100 := Math_round (mul parsed (of_Z 100)) in
      a ← Number txAmount;
      if strict_eq a asSmallest then Normal true
      else
        b ← Number txAmount;
        if strict_eq b asMainTimes100 then Normal true
        else Normal false.

(** [module.exports = async (req, res) => ...]; [env_key] is
    [process.env.PAYSTACK_SECRET_KEY]. *)
Definition handler (env_key : option string) (req : request) : prog response :=
  if String.eqb (method req) "OPTIONS" then
    Ret {| status := 204;
           headers := [("Access-Control-Allow-Origin", "*");
                       ("Access-Control-Allow-Methods", "POST, OPTIONS");
                       ("Access-Control-Allow-Headers", "Content-Type")];
           body := Text "" |}
  else if negb (String.eqb (method req) "POST") then
    Ret (json 405 (object [("verified", VBool false);
                           ("error", VStr "Method Not Allowed")]))
  else
    try_catch
      (match env_key with
       | None | Some EmptyString =>
           Ret (json 500 (object [("verified", VBool false);
                                  ("error", VStr "Server misconfiguration")]))
       | Some PAYSTACK_SECRET_KEY =>
           '(reference, email, currency, amount) ←
             lift (destructure (js_or (req_body req) (VObj ∅)));
           if negb (ToBoolean reference) then
             Ret (json 400 (object [("verified", VBool false);
                                    ("error", VStr "Missing reference")]))
           else
             encoded ← lift (encodeURIComponent reference);
             let url := ("https://api.paystack.co/transaction/verify/" ++ encoded)%string in
             paystackData ← axios_get
               {| url := url;
                  request_headers :=
                    [("Authorization", ("Bearer " ++ PAYSTACK_SECRET_KEY)%string)];
                  timeout := 10000 |};
             if negb (ToBoolean paystackData)
                || negb (ToBoolean (get paystackData "data")) then
               Ret (json 500 (object [("verified", VBool false);
                                      ("error", VStr "Invalid response from Paystack")]))
             else
               let tx := get paystackData "data" in
               let verified := strict_eq_string (get tx "status") "success" in
               verified ←
                 (if negb (is_nullish amount) then
                    match_ ← lift (amountsMatch amount (get tx "amount"));
                    Ret (if negb match_ then false else verified)
                  else Ret verified);
               verified ←
                 (if ToBoolean currency && ToBoolean (get tx "currency") then
                    c ← lift (call_toUpperCase "currency.toUpperCase" currency);
                    t ← lift (call_toUpperCase "tx.currency.toUpperCase"
                                (get tx "currency"));
                    Ret (if negb (String.eqb c t) then false else verified)
                  else Ret verified);
               Ret (json 200 (object [("verified", VBool verified); ("data", tx)]))
       end)
      (fun err =>
         Ret (json 500 (object
           [("verified", VBool false);
            ("error", js_or (js_or (default VUndefined (err_response err))
                                   (err_message err))
                            (VStr "Unknown error"))]))).

End Serverless.
End Serverless.

(* ================================================================= *)
(** * Reading responses, and the words of the specification *)

(** A field of a JSON response body ([undefined] when there is none). *)
Definition field (r : response) (k : string) : value :=
  match body r with
  | Json v => get v k
  | Text _ => VUndefined
  end.

(** What a client of either deployment observes of a verification: the
    status code, the [verified] flag and the [data] payload. *)
Definition outcome (r : response) : Z * value * value :=
  (status r, field r "verified", field r "data").

Definition observe (x : completion response * list axios_request)
  : option (Z * value * value) * list axios_request :=
  (match fst x with
   | Normal r => Some (outcome r)
   | Throw _ => None
   end, snd x).

Definition missing_reference : response :=
  json 400 (object [("verified", VBool false); ("error", VStr "Missing reference")]).

Definition invalid_upstream : response :=
  json 500 (object [("verified", VBool false);
                    ("error", VStr "Invalid response from Paystack")]).

(** The response to a verification that was carried out. *)
Definition verification_result (verified : bool) (tx : value) : response :=
  json 200 (object [("verified", VBool verified); ("data", tx)]).

(** A POST request to the serverless function. *)
Definition post (b : value) : Serverless.request :=
  {| Serverless.method := "POST"; Serverless.req_body := b |}.

(** The request either deployment sends to the gateway for a reference
    whose encoding is [encoded]. *)
Definition verify_request (key encoded : string) : axios_request :=
  {| url := "https://api.paystack.co/transaction/verify/" ++ encoded;
     request_headers := [("Authorization", "Bearer " ++ key)];
     timeout := 10000 |}%string.

(** A gateway body without the wrapper shape: absent, or without its
    inner [data]. *)
Definition malformed (paystackData : value) : bool :=
  negb (ToBoolean paystackData) || negb (ToBoolean (get paystackData "data")).

(** The steps of the specification in its own words, to compare the
    handlers with. *)
Module Spec.

(** Step 7 of the specification, on Number values: the gateway amount
    equals the client value rounded, or the client value times 100,
    rounded. *)
Definition dual_interpretation (a txAmount : number) : bool :=
  strict_eq txAmount (Math_round a)
  || strict_eq txAmount (Math_round (mul a (of_Z 100))).

Definition amount_matches (a txAmount : number) : bool :=
  if isNaN a then false else dual_interpretation a txAmount.



(** Step 8, "case-insensitive string comparison", on ASCII text: the
    same length, and at each place the same character or the two cases
    of one letter. *)
Definition is_letter (n : Z) : bool := in_range 65 90 n || in_range 97 122 n.

Definition same_character (c t : ascii) : bool :=
  (code c =? code t)
  || (is_letter (code c) && is_letter (code t)
      && ((code c =? code t + 32) || (code t =? code c + 32))).

Fixpoint equal_ignoring_case (c t : string) : bool :=
  match c, t with
  | EmptyString, EmptyString => true
  | String x c', String y t' => same_character x y && equal_ignoring_case c' t'
  | _, _ => false
  end.

(** "The caller supplied an amount", "supplied a currency", "the
    gateway reports a currency", as the code tests them. *)
Definition amount_supplied (amount : value) : bool := negb (is_nullish amount).
Definition currency_supplied (currency : value) : bool := ToBoolean currency.
Definition currency_reported (tx : value) : bool := ToBoolean (get tx "currency").

Definition success_status (tx : value) : bool :=
  strict_eq_string (get tx "status") "success".

Definition is_string (v : value) : bool :=
  match v with VStr _ => true | _ => false end.

Section Steps.
Context `{Runtime}.

(** Step 8: the comparison of two currency codes, through the upper
    case of both. *)
Definition currency_matches (currency txCurrency : value) : bool :=
  match currency, txCurrency with
  | VStr c, VStr t => String.eqb (toUpperCase c) (toUpperCase t)
  | _, _ => false
  end.

(** A value converts to a number ([Number(v)] does not throw), and the
    number it converts to. *)
Definition converts (v : value) : bool :=
  match Number v with Normal _ => true | Throw _ => false end.

Definition number_of (v : value) : number :=
  match Number v with Normal n => n | Throw _ => NaN end.

(** The optional checks can be carried out: the amounts that are
    converted convert, and the currencies that are compared are strings. *)
Definition amount_check_clean (amount tx : value) : bool :=
  negb (amount_supplied amount)
  || (converts amount
      && (isNaN (number_of amount) || converts (get tx "amount"))).

Definition currency_check_clean (currency tx : value) : bool :=
  negb (currency_supplied currency && currency_reported tx)
  || (is_string currency && is_string (get tx "currency")).

Definition checks_clean (amount currency tx : value) : bool :=
  amount_check_clean amount tx && currency_check_clean currency tx.

Definition amount_ok (amount tx : value) : bool :=
  negb (amount_supplied amount)
  || amount_matches (number_of amount) (number_of (get tx "amount")).

Definition currency_ok (currency tx : value) : bool :=
  negb (currency_supplied currency && currency_reported tx)
  || currency_matches currency (get tx "currency").

(** The [verified] flag of steps 6 to 8. *)
Definition expected_verified (amount currency tx : value) : bool :=
  success_status tx && amount_ok amount tx && currency_ok currency tx.

(** Step 7 on values. *)
Definition amounts_match (amount txAmount : value) : completion bool :=
  a ← Number amount;
  if isNaN a then Normal false
  else t ← Number txAmount; Normal (dual_interpretation a t).

(** Steps 6 to 8. *)
Definition verified_flag (amount currency tx : value) : completion bool :=
  matches ←
    (if amount_supplied amount then amounts_match amount (get tx "amount")
     else Normal true);
  same ←
    (if currency_supplied currency && currency_reported tx then
       c ← call_toUpperCase "currency.toUpperCase" currency;
       t ← call_toUpperCase "tx.currency.toUpperCase" (get tx "currency");
       Normal (String.eqb c t)
     else Normal true);
  Normal (success_status tx && matches && same).

(** Steps 2 to 10 as one function from the request and the gateway to
    the response and the calls made, [failure] shaping the answer to
    an exception. *)
Definition respond (failure : js_error -> response) (key : string)
    (b : value) (gateway : axios_request -> axios_outcome)
  : completion response * list axios_request :=
  match destructure b with
  | Throw e => (Normal (failure e), [])
  | Normal (reference, _, currency, amount) =>
      if negb (ToBoolean reference) then (Normal missing_reference, [])
      else
        match encodeURIComponent reference with
        | Throw e => (Normal (failure e), [])
        | Normal encoded =>
            (Normal
               match gateway (verify_request key encoded) with
               | Rejected e => failure e
               | Resolved paystackData =>
                   if malformed paystackData then invalid_upstream
                   else
                     let tx := get paystackData "data" in
                     match verified_flag amount currency tx with
                     | Normal verified => verification_result verified tx
                     | Throw e => failure e
                     end
               end,
             [verify_request key encoded])
        end
  end.

(** What the invariant of the data model asks of a verification whose
    flag is true, as the specification words it: the gateway reports
    success, and no amount was supplied or it matches, and no currency
    was supplied or it matches. *)
Definition stated_condition (amount currency tx : value) : Prop :=
  success_status tx = true
  /\ (amount_supplied amount = false
      \/ amounts_match amount (get tx "amount") = Normal true)
  /\ (currency_supplied currency = false
      \/ currency_matches currency (get tx "currency") = true).

(** The same with the guard the code has: the currencies are compared
    only when the gateway reports one. *)
Definition guarded_condition (amount currency tx : value) : Prop :=
  success_status tx = true
  /\ (amount_supplied amount = false
      \/ amounts_match amount (get tx "amount") = Normal true)
  /\ (currency_supplied currency = false
      \/ currency_reported tx = false
      \/ currency_matches currency (get tx "currency") = true).

End Steps.

End Spec.

(** The answers of the two [catch] blocks. *)
Definition server_failure (err : js_error) : response :=
  json 500 (object
    [("verified", VBool false);
     ("error", js_or (default VUndefined (err_response err)) (err_message err))]).

Definition serverless_failure (err : js_error) : response :=
  json 500 (object
    [("verified", VBool false);
     ("error", js_or (js_or (default VUndefined (err_response err))
                            (err_message err))
                     (VStr "Unknown error"))]).

(** Both deployments, serving with the credential [key], run to [x]
    against [gateway] on a POST with body [b]. *)
Definition both_run `{Runtime} (key : string) (b : value)
    (gateway : axios_request -> axios_outcome)
    (x : completion response * list axios_request) : Prop :=
  run gateway (Server.verify_payment key b) = x
  /\ run gateway (Serverless.handler (Some key) (post b)) = x.

(* ================================================================= *)
(** * Rounding to nearest, ties to even, in integers *)

(** [N / D] rounded to the nearest integer, ties to even. *)
Definition rne (N D : Z) : Z :=
  let q := N / D in
  match 2 * (N mod D) ?= D with
  | Lt => q
  | Eq => if Z.even q then q else q + 1
  | Gt => q + 1
  end.

(** Where [N / D] lies between [N / D] rounded down and the next integer. *)
Definition loc_of (N D : Z) : location :=
  if N mod D =? 0 then loc_Exact else loc_Inexact (2 * (N mod D) ?= D).

(** A shift record holds the integer part of [N / D] and the position of
    the rest. *)
Definition located (N D : Z) (r : shr_record) : Prop :=
  shr_m r = N / D /\ loc_of_shr_record r = loc_of N D.

(** The number of mantissa [m] (at most [2 ^ 53]) and exponent [e]. *)
Definition pack (s : bool) (m e : Z) : number :=
  match m with
  | Z0 => S754_zero s
  | Zpos p =>
      if m <? 2 ^ prec then
        if e <=? emax - prec then S754_finite s p e else S754_infinity s
      else
        if e + 1 <=? emax - prec
        then S754_finite s (Z.to_pos (2 ^ (prec - 1))) (e + 1)
        else S754_infinity s
  | Zneg _ => S754_nan
  end.

(** The mantissa of the number 100, [100 = m100 * 2 ^ -46]. *)
Definition m100 : Z := 7036874417766400.

(** A runtime to evaluate examples with: V8's wording of the messages;
    numbers are printed as JavaScript prints integers below 1e21, which
    is all the examples print; and the examples compare ASCII text only,
    so the upper case of other text is never asked for. *)
Definition example_runtime : Runtime :=
  {| NumberToString := fun n =>
       match n with
       | S754_nan => "NaN"
       | S754_infinity s => if s then "-Infinity" else "Infinity"
       | _ => pretty (Qfloor (Qval n))
       end;
     TypeError_message := fun k =>
       match k with
       | CannotDestructure VNull =>
           "Cannot destructure property 'reference' of 'req.body' as it is null."
       | CannotDestructure _ =>
           "Cannot destructure property 'reference' of 'req.body' as it is undefined."
       | NotAFunction callee => callee ++ " is not a function"
       | NoPrimitiveValue => "Cannot convert object to primitive value"
       end;
     UnicodeToUpperCase := upper_ascii_text |}%string.

(* ================================================================= *)
(** * [server.js]: the CORS policy *)

Module Cors.

(** The white space and line terminator characters of ECMA-262, in
    UTF-8: TAB, LF, VT, FF, CR, SP, U+00A0, U+1680, U+2000..U+200A,
    U+2028, U+2029, U+202F, U+205F, U+3000, U+FEFF. *)
Definition white_space : list (list Z) :=
  [[9]; [10]; [11]; [12]; [13]; [32]; [194; 160]; [225; 154; 128];
   [226; 128; 128]; [226; 128; 129]; [226; 128; 130]; [226; 128; 131];
   [226; 128; 132]; [226; 128; 133]; [226; 128; 134]; [226; 128; 135];
   [226; 128; 136]; [226; 128; 137]; [226; 128; 138]; [226; 128; 168];
   [226; 128; 169]; [226; 128; 175]; [226; 129; 159]; [227; 128; 128];
   [239; 187; 191]].

(** The text of a list of bytes. *)
Definition of_bytes (l : list Z) : string :=
  string_of_list_ascii (map (fun n => ascii_of_N (Z.to_N n)) l).

(** Length in bytes of the white space character that ends a text,
    given the bytes of the text reversed; 0 when it ends otherwise. The
    character is recognised whole: one byte, or the two bytes of U+00A0,
    or three bytes. *)
Definition ws_tail (rl : list Z) : nat :=
  if Nat.eqb (ws_head (rev (firstn 1 rl))) 1 then 1%nat
  else if Nat.eqb (ws_head (rev (firstn 2 rl))) 2 then 2%nat
  else if Nat.eqb (ws_head (rev (firstn 3 rl))) 3 then 3%nat
  else 0%nat.

(** [String.prototype.trim] on bytes: the white space at the head goes,
    then the white space at the end. *)
Definition trim_bytes (l : list Z) : list Z :=
  let l1 := trim_with ws_head (List.length l) l in
  rev (trim_with ws_tail (List.length l1) (rev l1)).

(** [s.trim()] *)
Definition js_trim (s : string) : string := of_bytes (trim_bytes (bytes s)).

(** [s.split(',')] *)
Fixpoint split_comma (s : string) : list string :=
  match s with
  | EmptyString => [EmptyString]
  | String c r =>
      if Ascii.eqb c "," then EmptyString :: split_comma r
      else match split_comma r with
           | x :: xs => String c x :: xs
           | [] => [String c EmptyString]
           end
  end.

(** Truthiness of a string, [Boolean(s)]. *)
Definition truthy (s : string) : bool := negb (String.eqb s "").

(** [const ALLOWED_ORIGIN = process.env.ALLOWED_ORIGIN || '*'] *)
Definition ALLOWED_ORIGIN (env : option string) : string :=
  match env with
  | Some s => if truthy s then s else "*"
  | None => "*"
  end.

(** [allowedOrigins], as the module leaves it after loading. *)
Definition allowedOrigins (env : option string) : list string :=
  if truthy (ALLOWED_ORIGIN env)
     && negb (String.eqb (js_trim (ALLOWED_ORIGIN env)) "*")
  then List.filter truthy (map js_trim (split_comma (ALLOWED_ORIGIN env)))
  else [].

(** What the [origin] function hands to its callback:
    [callback(null, true)] or [callback(new Error(msg), false)]. *)
Inductive decision : Type :=
| Allow
| Deny (message : string).

(** [origin: function(origin, callback)]; the argument is the [Origin]
    header of the request, [None] when it has none. *)
Definition origin (env : option string) (origin : option string) : decision :=
  match origin with
  | None => Allow
  | Some o =>
      if negb (truthy o) then Allow
      else if truthy (ALLOWED_ORIGIN env)
              && String.eqb (js_trim (ALLOWED_ORIGIN env)) "*" then Allow
      else if negb (Nat.eqb (List.length (allowedOrigins env)) 0)
              && existsb (String.eqb o) (allowedOrigins env) then Allow
      else Deny ("CORS policy: Origin " ++ o ++ " is not allowed")
  end%string.

(** A configuration listing the origins [os]: [os.join(sep)]. *)
Fixpoint join (sep : string) (os : list string) : string :=
  match os with
  | [] => EmptyString
  | [o] => o
  | o :: r => (o ++ sep ++ join sep r)%string
  end.

(** An origin as it can be listed: not empty, without a comma, without
    white space around it. *)
Definition listable (o : string) : Prop :=
  o <> EmptyString /\ ~ In 44 (bytes o) /\ js_trim o = o.

End Cors.

(* ================================================================= *)
(** * Further answers of the serverless function *)

(** The answer to a preflight request. *)
Definition preflight : response :=
  {| status := 204;
     headers := [("Access-Control-Allow-Origin", "*");
                 ("Access-Control-Allow-Methods", "POST, OPTIONS");
                 ("Access-Control-Allow-Headers", "Content-Type")]%string;
     body := Text "" |}.

Definition method_not_allowed : response :=
  json 405 (object [("verified", VBool false); ("error", VStr "Method Not Allowed")]).

Definition misconfigured : response :=
  json 500 (object [("verified", VBool false);
                    ("error", VStr "Server misconfiguration")]).

(** The credential as both deployments test it, [!PAYSTACK_SECRET_KEY]. *)
Definition credential (env_key : option string) : option string :=
  match env_key with
  | Some key => if String.eqb key "" then None else Some key
  | None => None
  end.

(** What [err.response?.data || err.message] evaluates to. *)
Definition failure_payload (err : js_error) : value :=
  js_or (default VUndefined (err_response err)) (err_message err).

(** The characters [encodeURIComponent] can produce: the unreserved ones,
    [%] and the hexadecimal digits. *)
Definition url_safe (c : ascii) : bool :=
  unreserved (code c) || Ascii.eqb c "%".

(** Reading [%XX] back. *)
Definition hex_value (c : ascii) : Z :=
  let n := code c in if n <? 58 then n - 48 else n - 55.

Fixpoint percent_decode (s : string) : string :=
  match s with
  | EmptyString => EmptyString
  | String c r =>
      match r with
      | String h (String l r') =>
          if Ascii.eqb c "%"
          then String (ascii_of_N (Z.to_N (16 * hex_value h + hex_value l)))
                 (percent_decode r')
          else String c (percent_decode r)
      | _ => String c (percent_decode r)
      end
  end.

(* ================================================================= *)
(** * The ways a request is answered *)

Section Cases.
Context `{Runtime}.

(** What [Spec.respond] can come to. *)
Inductive respond_case (failure : js_error -> response) (key : string)
    (b : value) (gateway : axios_request -> axios_outcome)
  : completion response * list axios_request -> Prop :=
| case_body :
    is_nullish b = true ->
    respond_case failure key b gateway
      (Normal (failure (TypeError (CannotDestructure b))), [])
| case_reference :
    is_nullish b = false ->
    ToBoolean (get b "reference") = false ->
    respond_case failure key b gateway (Normal missing_reference, [])
| case_encoding (e : js_error) :
    is_nullish b = false ->
    ToBoolean (get b "reference") = true ->
    encodeURIComponent (get b "reference") = Throw e ->
    respond_case failure key b gateway (Normal (failure e), [])
| case_rejected (encoded : string) (e : js_error) :
    is_nullish b = false ->
    ToBoolean (get b "reference") = true ->
    encodeURIComponent (get b "reference") = Normal encoded ->
    gateway (verify_request key encoded) = Rejected e ->
    respond_case failure key b gateway
      (Normal (failure e), [verify_request key encoded])
| case_malformed (encoded : string) (d : value) :
    is_nullish b = false ->
    ToBoolean (get b "reference") = true ->
    encodeURIComponent (get b "reference") = Normal encoded ->
    gateway (verify_request key encoded) = Resolved d ->
    malformed d = true ->
    respond_case failure key b gateway
      (Normal invalid_upstream, [verify_request key encoded])
| case_thrown (encoded : string) (d : value) (e : js_error) :
    is_nullish b = false ->
    ToBoolean (get b "reference") = true ->
    encodeURIComponent (get b "reference") = Normal encoded ->
    gateway (verify_request key encoded) = Resolved d ->
    malformed d = false ->
    Spec.verified_flag (get b "amount") (get b "currency") (get d "data") = Throw e ->
    respond_case failure key b gateway
      (Normal (failure e), [verify_request key encoded])
| case_verification (encoded : string) (d : value) (verified : bool) :
    is_nullish b = false ->
    ToBoolean (get b "reference") = true ->
    encodeURIComponent (get b "reference") = Normal encoded ->
    gateway (verify_request key encoded) = Resolved d ->
    malformed d = false ->
    Spec.verified_flag (get b "amount") (get b "currency") (get d "data")
    = Normal verified ->
    respond_case failure key b gateway
      (Normal (verification_result verified (get d "data")),
       [verify_request key encoded]).

End Cases.

(* ================================================================= *)
(** * Rounding: what [SpecFloat] computes *)

Lemma div_mod_eq (a b q r : Z) :
  0 <= r < b -> a = b * q + r -> a / b = q /\ a mod b = r.
Proof.
  intros Hr Ha. split.
  - symmetry. apply (Z.div_unique a b q r); [left; lia | lia].
  - symmetry. apply (Z.mod_unique a b q r); [left; lia | lia].
Qed.

(** The round and sticky bits of a record say where the rest of [N / D]
    lies. *)
Lemma loc_of_record_bits (N D : Z) (m : Z) (rb sb : bool) :
  0 < D ->
  loc_of_shr_record (Build_shr_record m rb sb) = loc_of N D ->
  (rb = false /\ sb = false /\ N mod D = 0)
  \/ (rb = false /\ sb = true /\ 0 < 2 * (N mod D) < D)
  \/ (rb = true /\ sb = false /\ 2 * (N mod D) = D)
  \/ (rb = true /\ sb = true /\ D < 2 * (N mod D)).
Proof.
  intros HD. unfold loc_of.
  pose proof (Z.mod_pos_bound N D HD) as Hb.
  destruct (Z.eqb_spec (N mod D) 0) as [E|E];
    destruct (Z.compare_spec (2 * (N mod D)) D) as [C|C|C];
    destruct rb, sb; simpl; intros Hl; try discriminate Hl; lia.
Qed.

(** Settles where the rest [rest] lies in an interval of width [D * 2],
    from where the rest lay in the interval of width [D]. *)
Ltac settle_location Hl rest D :=
  destruct Hl as [(-> & -> & ?) | [(-> & -> & ?) | [(-> & -> & ?) | (-> & -> & ?)]]];
  simpl; destruct (Z.eqb_spec rest 0);
  destruct (Z.compare_spec (2 * rest) (D * 2)); try lia; reflexivity.

(** One shift to the right halves the mantissa and keeps track of the
    rest: the record then locates [N] in units of [D * 2]. *)
Lemma shr_1_located (N D : Z) (r : shr_record) :
  0 <= N -> 0 < D -> located N D r -> located N (D * 2) (shr_1 r).
Proof.
  intros HN HD [Hm Hl]. destruct r as [m rb sb]. simpl in Hm.
  pose proof (Z.div_mod N D ltac:(lia)) as Hdm.
  pose proof (Z.mod_pos_bound N D HD) as Hb.
  pose proof (Z.div_pos N D HN HD) as Hq.
  apply loc_of_record_bits in Hl; [|assumption].
  assert (forall q' r', 0 <= r' < D * 2 -> N = D * 2 * q' + r' ->
            forall rec, shr_m rec = q' ->
              loc_of_shr_record rec
              = (if r' =? 0 then loc_Exact else loc_Inexact (2 * r' ?= D * 2)) ->
              located N (D * 2) rec) as Hk.
  { intros q' r' Hr' HN' rec Hrec Hloc.
    destruct (div_mod_eq N (D * 2) q' r' Hr' HN') as [Eq Er].
    split; [congruence|]. unfold loc_of. rewrite Er. exact Hloc. }
  rewrite <- Hm in *. clear Hm.
  destruct m as [|p|p]; [| destruct p as [p|p|] |lia]; cbn [shr_1].
  - apply (Hk 0 (N mod D)); [lia | lia | reflexivity |].
    settle_location Hl (N mod D) D.
  - apply (Hk (Z.pos p) (D + N mod D)); [lia | lia | reflexivity |].
    settle_location Hl (D + N mod D) D.
  - apply (Hk (Z.pos p) (N mod D)); [lia | lia | reflexivity |].
    settle_location Hl (N mod D) D.
  - apply (Hk 0 (D + N mod D)); [lia | lia | reflexivity |].
    settle_location Hl (D + N mod D) D.
Qed.

(** And so do [p] shifts, in units of [D * 2 ^ p]. *)
Lemma iter_shr_1_located (p : positive) :
  forall (N D : Z) (r : shr_record),
    0 <= N -> 0 < D -> located N D r ->
    located N (D * 2 ^ Z.pos p) (SpecFloat.iter_pos shr_1 p r).
Proof.
  induction p as [p IH | p IH |]; intros N D r HN HD Hr; cbn [SpecFloat.iter_pos].
  - pose proof (Z.pow_pos_nonneg 2 (Z.pos p) ltac:(lia) ltac:(lia)) as Hp.
    replace (D * 2 ^ Z.pos p~1) with (D * 2 * 2 ^ Z.pos p * 2 ^ Z.pos p).
    + apply IH; [assumption | nia |].
      apply IH; [assumption | lia |]. apply shr_1_located; assumption.
    + replace (Z.pos p~1) with (Z.pos p + Z.pos p + 1) by lia.
      rewrite !Z.pow_add_r by lia. change (2 ^ 1) with 2. ring.
  - pose proof (Z.pow_pos_nonneg 2 (Z.pos p) ltac:(lia) ltac:(lia)) as Hp.
    replace (D * 2 ^ Z.pos p~0) with (D * 2 ^ Z.pos p * 2 ^ Z.pos p).
    + apply IH; [assumption | nia |]. apply IH; assumption.
    + replace (Z.pos p~0) with (Z.pos p + Z.pos p) by lia.
      rewrite Z.pow_add_r by lia. ring.
  - change (2 ^ 1) with 2. apply shr_1_located; assumption.
Qed.

Lemma located_of_loc (N D : Z) :
  located N D (shr_record_of_loc (N / D) (loc_of N D)).
Proof.
  unfold located. destruct (loc_of N D) as [|[]]; split; reflexivity.
Qed.

(** Rounding a located record is [rne]. *)
Lemma round_located (N D : Z) (r : shr_record) :
  0 < D ->
  located N D r ->
  round_nearest_even (shr_m r) (loc_of_shr_record r) = rne N D.
Proof.
  intros HD [Hm Hl]. rewrite Hm, Hl. unfold loc_of, rne, round_nearest_even.
  destruct (Z.eqb_spec (N mod D) 0) as [E|E].
  - rewrite E. destruct D; try lia. reflexivity.
  - destruct (2 * (N mod D) ?= D); reflexivity.
Qed.

(** Properties of [rne]. *)
(** [rne] is within half a unit of the quotient. *)
Lemma rne_half (N D : Z) :
  0 < D -> - D <= 2 * (rne N D * D - N) <= D.
Proof.
  intros HD. unfold rne.
  pose proof (Z.div_mod N D ltac:(lia)) as Hdm.
  pose proof (Z.mod_pos_bound N D HD) as Hb.
  destruct (Z.compare_spec (2 * (N mod D)) D); [destruct (Z.even (N / D))| |]; nia.
Qed.

Lemma rne_bounds (N D : Z) :
  0 < D -> N / D <= rne N D <= N / D + 1.
Proof.
  intros HD. unfold rne.
  destruct (2 * (N mod D) ?= D); [destruct (Z.even (N / D))| |]; lia.
Qed.

Lemma rne_exact (N D q : Z) :
  0 < D -> N = q * D -> rne N D = q.
Proof.
  intros HD ->. unfold rne. rewrite Z.mod_mul, Z.div_mul by lia.
  destruct D; try lia. reflexivity.
Qed.

(** [Zdigits2] against powers of two. *)
Lemma digits2_pos_size (p : positive) : digits2_pos p = Pos.size p.
Proof. induction p; simpl; congruence. Qed.

Lemma Zdigits2_log2 (m : Z) : 0 < m -> Zdigits2 m = Z.log2 m + 1.
Proof.
  destruct m as [|p|p]; try lia. intros _. simpl. rewrite digits2_pos_size.
  destruct p; simpl; lia.
Qed.

Lemma Zdigits2_bounds (m : Z) :
  0 < m -> 2 ^ (Zdigits2 m - 1) <= m < 2 ^ Zdigits2 m.
Proof.
  intros Hm. rewrite Zdigits2_log2 by assumption.
  replace (Z.log2 m + 1 - 1) with (Z.log2 m) by lia.
  apply Z.log2_spec. assumption.
Qed.

Lemma Zdigits2_unique (m d : Z) :
  2 ^ (d - 1) <= m < 2 ^ d -> 0 < m -> Zdigits2 m = d.
Proof.
  intros Hm H0. rewrite Zdigits2_log2 by assumption.
  assert (0 < d) as Hd.
  { destruct (Z_lt_le_dec 0 d); [assumption|].
    destruct (Z.eq_dec d 0) as [->|]; [simpl in Hm; lia|].
    rewrite (Z.pow_neg_r 2 d) in Hm by lia. lia. }
  enough (Z.log2 m = d - 1) by lia.
  apply Z.log2_unique; [lia|]. replace (Z.succ (d - 1)) with d by lia. assumption.
Qed.

Lemma Zdigits2_nonneg (m : Z) : 0 <= Zdigits2 m.
Proof. destruct m; simpl; lia. Qed.

Lemma Zdigits2_le (m d : Z) : 0 <= m -> 0 <= d -> m < 2 ^ d -> Zdigits2 m <= d.
Proof.
  intros Hm Hd Hlt. destruct (Z.eq_dec m 0) as [->|]; [simpl; lia|].
  rewrite Zdigits2_log2 by lia.
  enough (Z.log2 m < d) by lia. apply Z.log2_lt_pow2; lia.
Qed.

Lemma fexp_eq (x : Z) : fexp prec emax x = Z.max (x - 53) (-1074).
Proof. reflexivity. Qed.

(** The first shift of [binary_round_aux]. *)
Lemma shr_fexp_located (N D m e : Z) :
  0 <= N -> 0 < D -> m = N / D ->
  e <= fexp prec emax (Zdigits2 m + e) ->
  exists rec,
    shr_fexp prec emax m e (loc_of N D) = (rec, fexp prec emax (Zdigits2 m + e))
    /\ located N (D * 2 ^ (fexp prec emax (Zdigits2 m + e) - e)) rec.
Proof.
  intros HN HD -> He. unfold shr_fexp, shr.
  set (e' := fexp prec emax (Zdigits2 (N / D) + e)) in *.
  destruct (e' - e) as [|p|p] eqn:En; try lia.
  - eexists; split; [f_equal; lia|].
    rewrite Z.mul_1_r. apply located_of_loc.
  - eexists; split; [f_equal; lia|].
    apply iter_shr_1_located; [assumption | assumption | apply located_of_loc].
Qed.

(** The second shift of [binary_round_aux] leaves a mantissa below
    [2 ^ 53] alone, *)
Lemma shr_fexp_exact_small (m e : Z) :
  0 <= m < 2 ^ prec -> -1074 <= e ->
  shr_fexp prec emax m e loc_Exact = (Build_shr_record m false false, e).
Proof.
  intros Hm He. unfold shr_fexp, shr. cbn [shr_record_of_loc].
  assert (Zdigits2 m <= 53) as Hd by (apply Zdigits2_le; unfold prec in *; lia).
  rewrite fexp_eq.
  destruct (Z.max (Zdigits2 m + e - 53) (-1074) - e) eqn:En; try reflexivity. lia.
Qed.

(** and halves the mantissa [2 ^ 53] that rounding up can produce. *)
Lemma shr_fexp_exact_carry (e : Z) :
  -1074 <= e ->
  shr_fexp prec emax (2 ^ prec) e loc_Exact
  = (Build_shr_record (2 ^ (prec - 1)) false false, e + 1).
Proof.
  intros He. unfold shr_fexp, shr. cbn [shr_record_of_loc].
  change (Zdigits2 (2 ^ prec)) with 54. rewrite fexp_eq.
  replace (Z.max (54 + e - 53) (-1074) - e) with 1 by lia.
  reflexivity.
Qed.

(** What [binary_round_aux] makes of a mantissa [m = N / D] that has at
    least the digits of the format: it shifts to the exponent of the
    format, rounds [N] in the new unit, and packs. *)
Lemma binary_round_aux_located (s : bool) (N D m e : Z) :
  0 <= N -> 0 < D -> m = N / D ->
  e <= fexp prec emax (Zdigits2 m + e) ->
  binary_round_aux prec emax s m e (loc_of N D)
  = pack s (rne N (D * 2 ^ (fexp prec emax (Zdigits2 m + e) - e)))
           (fexp prec emax (Zdigits2 m + e)).
Proof.
  intros HN HD Hm He.
  destruct (shr_fexp_located N D m e HN HD Hm He) as (rec & Hshr & Hloc).
  unfold binary_round_aux. rewrite Hshr.
  set (e' := fexp prec emax (Zdigits2 m + e)) in *.
  set (n := e' - e) in *.
  assert (0 <= n) as Hn by lia.
  pose proof (Z.pow_pos_nonneg 2 n ltac:(lia) Hn) as Hpow.
  assert (0 < D * 2 ^ n) as HD' by nia.
  rewrite (round_located N (D * 2 ^ n) rec HD' Hloc).
  pose proof (rne_bounds N (D * 2 ^ n) HD') as Hb.
  assert (-1074 <= e') as Hemin by (unfold e'; rewrite fexp_eq; lia).
  assert (N / (D * 2 ^ n) < 2 ^ prec) as Hlt.
  { rewrite <- Z.div_div by lia. rewrite <- Hm.
    apply Z.div_lt_upper_bound; [lia|].
    assert (0 <= m) as Hm0 by (subst m; apply Z.div_pos; lia).
    destruct (Z.eq_dec m 0) as [->|Hne].
    - pose proof (Z.pow_pos_nonneg 2 prec ltac:(lia) ltac:(unfold prec; lia)). nia.
    - pose proof (Zdigits2_bounds m ltac:(lia)) as [_ Hu].
      rewrite <- Z.pow_add_r by (unfold prec; lia).
      eapply Z.lt_le_trans; [exact Hu|].
      apply Z.pow_le_mono_r; [lia|].
      subst n e'. rewrite fexp_eq in *. unfold prec. lia. }
  assert (0 <= N / (D * 2 ^ n)) as Hge by (apply Z.div_pos; lia).
  set (m1 := rne N (D * 2 ^ n)) in *.
  destruct (Z.eq_dec m1 (2 ^ prec)) as [E|E].
  - rewrite E, shr_fexp_exact_carry by assumption. cbn [shr_m].
    unfold pack. reflexivity.
  - rewrite shr_fexp_exact_small by lia. cbn [shr_m].
    unfold pack. destruct m1 as [|p|p]; try lia; try reflexivity.
    destruct (Z.ltb_spec (Z.pos p) (2 ^ prec)); [reflexivity | lia].
Qed.

Lemma loc_of_one (N : Z) : loc_of N 1 = loc_Exact.
Proof. unfold loc_of. rewrite Z.mod_1_r. reflexivity. Qed.

Lemma iter_xO (d : positive) (p : positive) :
  Z.pos (Pos.iter xO p d) = Z.pos p * 2 ^ Z.pos d.
Proof.
  induction d as [|d IH] using Pos.peano_ind.
  - cbn [Pos.iter]. rewrite Pos2Z.inj_xO, Z.pow_1_r. ring.
  - rewrite Pos.iter_succ, Pos2Z.inj_xO, IH, Pos2Z.inj_succ, Z.pow_succ_r by lia.
    ring.
Qed.

Lemma Zdigits2_shift (m k : Z) :
  0 < m -> 0 <= k -> Zdigits2 (m * 2 ^ k) = Zdigits2 m + k.
Proof.
  intros Hm Hk. pose proof (Zdigits2_bounds m Hm) as [Hl Hu].
  pose proof (Z.pow_pos_nonneg 2 k ltac:(lia) Hk) as Hp.
  assert (0 < Zdigits2 m) by (destruct m; simpl; lia).
  apply Zdigits2_unique; [|nia].
  replace (Zdigits2 m + k - 1) with (Zdigits2 m - 1 + k) by lia.
  rewrite !Z.pow_add_r by lia. nia.
Qed.

Lemma pack_finite (s : bool) (m e : Z) :
  0 < m < 2 ^ prec -> e <= emax - prec ->
  pack s m e = S754_finite s (Z.to_pos m) e.
Proof.
  intros Hm He. unfold pack. destruct m as [|p|p]; try lia.
  destruct (Z.ltb_spec (Z.pos p) (2 ^ prec)); [|lia].
  destruct (Z.leb_spec e (emax - prec)); [|lia]. reflexivity.
Qed.

Lemma pack_not_nan (s : bool) (m e : Z) : 0 <= m -> isNaN (pack s m e) = false.
Proof.
  intros Hm. unfold pack. destruct m as [|p|p]; try lia; [reflexivity|].
  repeat match goal with |- context [if ?b then _ else _] => destruct b end;
    reflexivity.
Qed.

(** Rounding an exact value [m * 2 ^ e]. *)
Lemma binary_round_aux_exact (s : bool) (m e : Z) :
  0 <= m ->
  e <= fexp prec emax (Zdigits2 m + e) ->
  binary_round_aux prec emax s m e loc_Exact
  = pack s (rne m (2 ^ (fexp prec emax (Zdigits2 m + e) - e)))
           (fexp prec emax (Zdigits2 m + e)).
Proof.
  intros Hm He. rewrite <- (loc_of_one m).
  rewrite (binary_round_aux_located s m 1 m e Hm ltac:(lia)
             ltac:(symmetry; apply Z.div_1_r) He).
  rewrite Z.mul_1_l. reflexivity.
Qed.

Lemma binary_round_pack (s : bool) (mx : positive) (ex : Z) :
  let e' := fexp prec emax (Z.pos (digits2_pos mx) + ex) in
  binary_round prec emax s mx ex
  = pack s (rne (Z.pos mx * 2 ^ (ex - Z.min ex e')) (2 ^ (e' - Z.min ex e'))) e'.
Proof.
  intros e'. unfold binary_round, shl_align. fold e'.
  change (Z.pos (digits2_pos mx)) with (Zdigits2 (Z.pos mx)) in e'.
  destruct (e' - ex) as [|d|d] eqn:Ed.
  - rewrite binary_round_aux_exact by (fold e'; lia). fold e'.
    replace (Z.min ex e') with ex by lia.
    rewrite Z.sub_diag, Z.mul_1_r. reflexivity.
  - rewrite binary_round_aux_exact by (fold e'; lia). fold e'.
    replace (Z.min ex e') with ex by lia.
    rewrite Z.sub_diag, Z.mul_1_r. reflexivity.
  - assert (fexp prec emax (Zdigits2 (Z.pos (Pos.iter xO mx d)) + e') = e') as He.
    { rewrite iter_xO, Zdigits2_shift by lia. subst e'. f_equal. lia. }
    rewrite binary_round_aux_exact by lia. rewrite He.
    replace (Z.min ex e') with e' by lia.
    rewrite !Z.sub_diag, iter_xO. repeat f_equal. lia.
Qed.

Lemma rne_nonneg (N D : Z) : 0 <= N -> 0 < D -> 0 <= rne N D.
Proof.
  intros HN HD. pose proof (rne_bounds N D HD).
  pose proof (Z.div_pos N D HN HD). lia.
Qed.

(** An integer never converts to NaN. *)
Lemma of_Z_not_nan (z : Z) : isNaN (of_Z z) = false.
Proof.
  unfold of_Z, binary_normalize. destruct z as [|p|p]; [reflexivity| |];
    rewrite binary_round_pack; apply pack_not_nan; apply rne_nonneg;
    try (apply Z.pow_pos_nonneg; lia);
    apply Z.mul_nonneg_nonneg; try lia; apply Z.pow_nonneg; lia.
Qed.

(** A positive integer below [2 ^ 53] is a Number, in normal form. *)
Lemma of_Z_small (A : Z) :
  0 < A < 2 ^ 53 ->
  of_Z A = S754_finite false (Z.to_pos (A * 2 ^ (53 - Zdigits2 A))) (Zdigits2 A - 53).
Proof.
  intros HA. destruct A as [|p|p]; try lia.
  unfold of_Z, binary_normalize. rewrite binary_round_pack.
  change (Z.pos (digits2_pos p)) with (Zdigits2 (Z.pos p)).
  assert (0 < Zdigits2 (Z.pos p) <= 53) as Hd.
  { split; [simpl; lia|]. apply Zdigits2_le; lia. }
  rewrite Z.add_0_r, fexp_eq.
  replace (Z.max (Zdigits2 (Z.pos p) - 53) (-1074)) with (Zdigits2 (Z.pos p) - 53) by lia.
  replace (Z.min 0 (Zdigits2 (Z.pos p) - 53)) with (Zdigits2 (Z.pos p) - 53) by lia.
  rewrite Z.sub_diag. change (2 ^ 0) with 1.
  rewrite (rne_exact _ 1 (Z.pos p * 2 ^ (0 - (Zdigits2 (Z.pos p) - 53)))) by lia.
  replace (0 - (Zdigits2 (Z.pos p) - 53)) with (53 - Zdigits2 (Z.pos p)) by lia.
  apply pack_finite; [|unfold emax, prec; lia].
  pose proof (Zdigits2_bounds (Z.pos p) ltac:(lia)) as [Hl Hu].
  pose proof (Z.pow_pos_nonneg 2 (53 - Zdigits2 (Z.pos p)) ltac:(lia) ltac:(lia)).
  split; [nia|]. unfold prec.
  replace 53 with (Zdigits2 (Z.pos p) + (53 - Zdigits2 (Z.pos p))) at 2 by lia.
  rewrite Z.pow_add_r by lia. nia.
Qed.

(** The location [SFdiv] computes from the rest of its division. *)
Lemma new_location_loc_of (N D : Z) :
  0 < D -> new_location D (N mod D) = loc_of N D.
Proof.
  intros HD. pose proof (Z.mod_pos_bound N D HD) as Hb.
  unfold new_location, new_location_even, new_location_odd, loc_of.
  destruct (Z.even D) eqn:Ev; destruct (Z.eqb_spec (N mod D) 0); try reflexivity.
  f_equal.
  assert (Z.odd D = true) as Hodd by (rewrite <- Z.negb_even, Ev; reflexivity).
  apply Z.odd_spec in Hodd as [t Ht].
  destruct (Z.compare_spec (2 * (N mod D) + 1) D);
    destruct (Z.compare_spec (2 * (N mod D)) D); try lia; reflexivity.
Qed.

Lemma SFdiv_core_binary_spec (m1 e1 m2 e2 : Z) :
  0 < m1 -> 0 < m2 ->
  let e0 := Z.min (fexp prec emax (Zdigits2 m1 + e1 - (Zdigits2 m2 + e2))) (e1 - e2) in
  let N := m1 * 2 ^ (e1 - e2 - e0) in
  SFdiv_core_binary prec emax m1 e1 m2 e2 = (N / m2, e0, loc_of N m2).
Proof.
  intros H1 H2 e0 N. unfold SFdiv_core_binary. fold e0.
  assert (0 <= e1 - e2 - e0) as Hs by (subst e0; lia).
  assert ((match e1 - e2 - e0 with
           | Z.pos _ => Z.shiftl m1 (e1 - e2 - e0)
           | 0 => m1
           | Z.neg _ => 0
           end) = N) as ->.
  { subst N. destruct (e1 - e2 - e0) as [|p|p] eqn:E; try lia.
    rewrite Z.shiftl_mul_pow2 by lia. reflexivity. }
  pose proof (new_location_loc_of N m2 H2) as Hloc.
  unfold Z.modulo, Z.div in *.
  destruct (Z.div_eucl N m2) as [q r]. rewrite Hloc. reflexivity.
Qed.

(** The quotient of two finite numbers. *)
Lemma SFdiv_finite_pack (sx sy : bool) (mx my : positive) (ex ey : Z) :
  let e0 := Z.min (fexp prec emax (Zdigits2 (Z.pos mx) + ex - (Zdigits2 (Z.pos my) + ey)))
                  (ex - ey) in
  let N := Z.pos mx * 2 ^ (ex - ey - e0) in
  let e' := fexp prec emax (Zdigits2 (N / Z.pos my) + e0) in
  e0 <= e' ->
  div (S754_finite sx mx ex) (S754_finite sy my ey)
  = pack (xorb sx sy) (rne N (Z.pos my * 2 ^ (e' - e0))) e'.
Proof.
  intros e0 N e' He. unfold div, SFdiv.
  rewrite SFdiv_core_binary_spec by lia. fold e0 N.
  apply binary_round_aux_located; [ | lia | reflexivity | exact He].
  subst N. apply Z.mul_nonneg_nonneg; [lia|]. apply Z.pow_nonneg. lia.
Qed.

(** The product of two finite numbers. *)
Lemma SFmul_finite_pack (sx sy : bool) (mx my : positive) (ex ey : Z) :
  let e' := fexp prec emax (Zdigits2 (Z.pos mx * Z.pos my) + (ex + ey)) in
  ex + ey <= e' ->
  mul (S754_finite sx mx ex) (S754_finite sy my ey)
  = pack (xorb sx sy) (rne (Z.pos mx * Z.pos my) (2 ^ (e' - (ex + ey)))) e'.
Proof.
  intros e' He. unfold mul, SFmul.
  rewrite Pos2Z.inj_mul. apply binary_round_aux_exact; [lia | exact He].
Qed.

(** [x === x] unless [x] is NaN. *)
Lemma strict_eq_refl (x : number) : isNaN x = false -> strict_eq x x = true.
Proof.
  destruct x as [s|s| |s m e]; try discriminate; intros _;
    unfold strict_eq, SFeqb, SFcompare.
  - reflexivity.
  - destruct s; reflexivity.
  - rewrite Z.compare_refl, Pos.compare_cont_refl. destruct s; reflexivity.
Qed.

Lemma strict_eq_of_Z_round (A r : Z) (s : bool) :
  r = A ->
  strict_eq (of_Z A) (if r =? 0 then S754_zero s else of_Z r) = true.
Proof.
  intros ->. destruct (Z.eqb_spec A 0) as [-> | _].
  - reflexivity.
  - apply strict_eq_refl, of_Z_not_nan.
Qed.

Lemma Qfloor_unique (q : Q) (z : Z) :
  (inject_Z z <= q)%Q -> (q < inject_Z (z + 1))%Q -> Qfloor q = z.
Proof.
  intros Hl Hu.
  pose proof (Qfloor_le q) as H1. pose proof (Qlt_floor q) as H2.
  assert (z < Qfloor q + 1).
  { rewrite Zlt_Qlt. eapply Qle_lt_trans; eassumption. }
  assert (Qfloor q < z + 1).
  { rewrite Zlt_Qlt. eapply Qle_lt_trans; eassumption. }
  lia.
Qed.

(** [Math.round] within half a unit of an integer. *)
Lemma Math_round_near (A : Z) (x : number) :
  is_finite x = true ->
  (inject_Z A - (1 # 2) <= Qval x)%Q ->
  (Qval x < inject_Z A + (1 # 2))%Q ->
  strict_eq (of_Z A) (Math_round x) = true.
Proof.
  intros Hf Hl Hu.
  assert (Qfloor (Qval x + (1 # 2)) = A) as Hfl.
  { apply Qfloor_unique.
    - lra.
    - rewrite inject_Z_plus. change (inject_Z 1) with 1%Q. lra. }
  destruct x as [s|s| |s m e]; try discriminate.
  - assert (A = 0) as -> by (rewrite <- Hfl; reflexivity).
    reflexivity.
  - unfold Math_round. apply strict_eq_of_Z_round. exact Hfl.
Qed.

Lemma of_Z_100 : of_Z 100 = S754_finite false (Z.to_pos m100) (-46).
Proof. reflexivity. Qed.

Lemma Zdigits2_mantissa (u : Z) : 2 ^ 52 <= u < 2 ^ 53 -> Zdigits2 u = 53.
Proof. intros Hu. apply Zdigits2_unique; [exact Hu | lia]. Qed.

(** [x / 100] for a normal [x = u * 2 ^ e]. *)
Lemma div_100_pack (u e : Z) :
  2 ^ 52 <= u < 2 ^ 53 -> -1000 <= e <= 900 ->
  div (S754_finite false (Z.to_pos u) e) (of_Z 100)
  = pack false (rne (u * 2 ^ 53) (m100 * 2 ^ (if u <? 25 * 2 ^ 48 then 0 else 1)))
      (e - 7 + (if u <? 25 * 2 ^ 48 then 0 else 1)).
Proof.
  intros Hu He. rewrite of_Z_100.
  assert (Z.pos (Z.to_pos u) = u) as Eu by (apply Z2Pos.id; lia).
  assert (Z.min (fexp prec emax (Zdigits2 (Z.pos (Z.to_pos u)) + e
                                 - (Zdigits2 (Z.pos (Z.to_pos m100)) + -46)))
                (e - -46) = e - 7) as E0.
  { rewrite Eu, (Zdigits2_mantissa u Hu), fexp_eq.
    change (Zdigits2 (Z.pos (Z.to_pos m100))) with 53. lia. }
  assert (Z.pos (Z.to_pos u) * 2 ^ (e - -46 - (e - 7)) = u * 2 ^ 53) as EN.
  { rewrite Eu. f_equal. f_equal. lia. }
  pose proof (SFdiv_finite_pack false false (Z.to_pos u) (Z.to_pos m100) e (-46)) as H.
  cbv zeta in H. rewrite E0, EN in H.
  change (Z.pos (Z.to_pos m100)) with m100 in H.
  pose proof (Z.div_mod (u * 2 ^ 53) m100 ltac:(unfold m100; lia)) as Hdm.
  pose proof (Z.mod_pos_bound (u * 2 ^ 53) m100 ltac:(unfold m100; lia)) as Hmb.
  set (q := u * 2 ^ 53 / m100) in *.
  set (r := (u * 2 ^ 53) mod m100) in *.
  unfold m100 in Hdm, Hmb.
  destruct (Z.ltb_spec u (25 * 2 ^ 48)) as [Hlt|Hge].
  - assert (Zdigits2 q = 53) as Hd by (apply Zdigits2_unique; lia).
    rewrite Hd, fexp_eq in H.
    replace (Z.max (53 + (e - 7) - 53) (-1074)) with (e - 7) in H by lia.
    rewrite H by lia. rewrite Z.sub_diag. f_equal. lia.
  - assert (Zdigits2 q = 54) as Hd by (apply Zdigits2_unique; lia).
    rewrite Hd, fexp_eq in H.
    replace (Z.max (54 + (e - 7) - 53) (-1074)) with (e - 6) in H by lia.
    rewrite H by lia. replace (e - 6 - (e - 7)) with 1 by lia. f_equal. lia.
Qed.

(** [x * 100] for a normal [x = c * 2 ^ e]. *)
Lemma mul_100_pack (c e : Z) :
  2 ^ 52 <= c < 2 ^ 53 -> -1000 <= e <= 900 ->
  mul (S754_finite false (Z.to_pos c) e) (of_Z 100)
  = pack false (rne (c * m100) (2 ^ (52 + (if c * 25 <? 2 ^ 57 then 0 else 1))))
      (e + 6 + (if c * 25 <? 2 ^ 57 then 0 else 1)).
Proof.
  intros Hc He. rewrite of_Z_100.
  assert (Z.pos (Z.to_pos c) = c) as Ec by (apply Z2Pos.id; lia).
  pose proof (SFmul_finite_pack false false (Z.to_pos c) (Z.to_pos m100) e (-46)) as H.
  cbv zeta in H. rewrite Ec in H. change (Z.pos (Z.to_pos m100)) with m100 in H.
  destruct (Z.ltb_spec (c * 25) (2 ^ 57)) as [Hlt|Hge].
  - assert (Zdigits2 (c * m100) = 105) as Hd
        by (apply Zdigits2_unique; unfold m100; lia).
    rewrite Hd, fexp_eq in H.
    replace (Z.max (105 + (e + -46) - 53) (-1074)) with (e + 6) in H by lia.
    rewrite H by lia. f_equal; [f_equal; f_equal|]; lia.
  - assert (Zdigits2 (c * m100) = 106) as Hd
        by (apply Zdigits2_unique; unfold m100; lia).
    rewrite Hd, fexp_eq in H.
    replace (Z.max (106 + (e + -46) - 53) (-1074)) with (e + 7) in H by lia.
    rewrite H by lia. f_equal; [f_equal; f_equal|]; lia.
Qed.

(** The value of a packed number. *)
Lemma Qval_pack (m e : Z) :
  0 < m <= 2 ^ 53 -> e < 0 ->
  is_finite (pack false m e) = true
  /\ (Qval (pack false m e) == Qmake m (Z.to_pos (2 ^ (- e))))%Q.
Proof.
  intros Hm He.
  pose proof (Z.pow_pos_nonneg 2 (- e) ltac:(lia) ltac:(lia)) as Hp.
  destruct (Z.eq_dec m (2 ^ 53)) as [->|Hne].
  - unfold pack. change (2 ^ 53 <? 2 ^ prec) with false. cbv iota.
    change (2 ^ 53) with 9007199254740992. cbv iota beta.
    destruct (Z.leb_spec (e + 1) (emax - prec)) as [_|Hbad];
      [|unfold emax, prec in Hbad; lia].
    split; [reflexivity|]. unfold Qval.
    destruct (Z.leb_spec 0 (e + 1)) as [H0|H0].
    + assert (e = -1) as -> by lia. reflexivity.
    + unfold Qeq. cbn [Qnum Qden].
      change (Z.pos (Z.to_pos (2 ^ (prec - 1)))) with 4503599627370496.
      pose proof (Z.pow_pos_nonneg 2 (- (e + 1)) ltac:(lia) ltac:(lia)).
      rewrite !Z2Pos.id by lia.
      replace (- e) with (Z.succ (- (e + 1))) by lia.
      rewrite Z.pow_succ_r by lia. lia.
  - rewrite pack_finite by (unfold emax, prec; lia).
    split; [reflexivity|]. unfold Qval.
    destruct (Z.leb_spec 0 e); [lia|].
    rewrite Z2Pos.id by lia. reflexivity.
Qed.

(** [Math.round] of a packed number within half a unit of [A]. *)
Lemma Math_round_pack (A m e : Z) :
  0 < m <= 2 ^ 53 -> e < 0 ->
  (2 * A - 1) * 2 ^ (- e) <= 2 * m < (2 * A + 1) * 2 ^ (- e) ->
  strict_eq (of_Z A) (Math_round (pack false m e)) = true.
Proof.
  intros Hm He Hb.
  pose proof (Z.pow_pos_nonneg 2 (- e) ltac:(lia) ltac:(lia)) as Hp.
  destruct (Qval_pack m e Hm He) as [Hf Hq].
  apply Math_round_near; [exact Hf | |]; rewrite Hq; unfold Qle, Qlt, Qminus, Qplus;
    cbn [Qnum Qden Qopp inject_Z]; rewrite ?Z2Pos.id by lia; lia.
Qed.

(** Dividing an amount by 100 and multiplying it back by 100 rounds to
    the amount again, below [100 * 2 ^ 45]. *)
Lemma times_100_of_div_100 (A : Z) :
  0 < A < 100 * 2 ^ 45 ->
  strict_eq (of_Z A) (Math_round (mul (div (of_Z A) (of_Z 100)) (of_Z 100))) = true.
Proof.
  intros HA.
  assert (0 < Zdigits2 A <= 52) as Hd.
  { split; [destruct A; simpl; lia|]. apply Zdigits2_le; lia. }
  pose proof (Zdigits2_bounds A ltac:(lia)) as HAb.
  set (d := Zdigits2 A) in *.
  pose proof (Z.pow_pos_nonneg 2 (52 - d) ltac:(lia) ltac:(lia)) as Hs.
  assert (2 ^ (53 - d) = 2 * 2 ^ (52 - d)) as Es.
  { replace (53 - d) with (Z.succ (52 - d)) by lia. apply Z.pow_succ_r. lia. }
  assert (2 ^ 52 = 2 ^ (d - 1) * (2 * 2 ^ (52 - d))) as E52.
  { rewrite <- Es, <- Z.pow_add_r by lia. f_equal. lia. }
  assert (2 ^ 53 = 2 ^ d * (2 * 2 ^ (52 - d))) as E53.
  { rewrite <- Es, <- Z.pow_add_r by lia. f_equal. lia. }
  assert (d = 52 -> 2 ^ (52 - d) = 1) as Hd52 by (intros ->; reflexivity).
  set (a := of_Z A) at 1.
  rewrite of_Z_small by lia. fold d. rewrite Es.
  set (s' := 2 ^ (52 - d)) in *.
  set (u := A * (2 * s')).
  assert (2 ^ 52 <= u < 2 ^ 53) as Hu by (subst u; nia).
  assert (u < 200 * 2 ^ 45 * s') as Hu2 by (subst u; nia).
  assert (u = 2 * s' * A) as Eu by (subst u; ring).
  rewrite div_100_pack by lia.
  set (j := if u <? 25 * 2 ^ 48 then 0 else 1).
  assert ((j = 0 /\ u < 25 * 2 ^ 48) \/ (j = 1 /\ 25 * 2 ^ 48 <= u)) as Hj.
  { subst j. destruct (Z.ltb_spec u (25 * 2 ^ 48)); lia. }
  pose proof (rne_half (u * 2 ^ 53) (m100 * 2 ^ j)
                ltac:(unfold m100; destruct Hj as [[-> _]|[-> _]]; lia)) as Hc.
  set (c := rne (u * 2 ^ 53) (m100 * 2 ^ j)) in *.
  assert (2 ^ 52 <= c < 2 ^ 53) as Hcb.
  { unfold m100 in Hc. destruct Hj as [[-> Hj]|[-> Hj]]; lia. }
  rewrite pack_finite by (unfold prec, emax; lia).
  rewrite mul_100_pack by lia.
  set (k := if c * 25 <? 2 ^ 57 then 0 else 1).
  assert ((k = 0 /\ c * 25 < 2 ^ 57) \/ (k = 1 /\ 2 ^ 57 <= c * 25)) as Hk.
  { subst k. destruct (Z.ltb_spec (c * 25) (2 ^ 57)); lia. }
  pose proof (rne_half (c * m100) (2 ^ (52 + k))
                ltac:(destruct Hk as [[-> _]|[-> _]]; lia)) as Hr.
  set (r := rne (c * m100) (2 ^ (52 + k))) in *.
  assert (0 < s') as Hs' by lia.
  assert (j = 1 -> 2 <= s') as Hj1.
  { intros ->. destruct (Z.eq_dec d 52) as [E|E]; [rewrite (Hd52 E) in *; lia|].
    subst s'. replace (52 - d) with (Z.succ (51 - d)) by lia.
    rewrite Z.pow_succ_r by lia.
    pose proof (Z.pow_pos_nonneg 2 (51 - d) ltac:(lia) ltac:(lia)). lia. }
  assert (2 ^ (- (d - 53 - 7 + j + 6 + k)) = s' * 2 ^ (2 - j - k)) as Ee.
  { subst s'. rewrite <- Z.pow_add_r by (destruct Hj as [[-> _]|[-> _]];
      destruct Hk as [[-> _]|[-> _]]; lia). f_equal. lia. }
  unfold m100 in Hc, Hr. subst a.
  apply Math_round_pack.
  - destruct Hk as [[-> Hk]|[-> Hk]]; lia.
  - destruct Hj as [[-> Hj]|[-> Hj]]; destruct Hk as [[-> Hk]|[-> Hk]]; lia.
  - rewrite Ee.
    destruct Hj as [[-> Hj]|[-> Hj]]; destruct Hk as [[-> Hk]|[-> Hk]];
      [ change (2 ^ (2 - 0 - 0)) with 4 | change (2 ^ (2 - 0 - 1)) with 2
      | change (2 ^ (2 - 1 - 0)) with 2 | change (2 ^ (2 - 1 - 1)) with 1 ];
      [ change (2 ^ (52 + 0)) with (2 ^ 52) in Hr; change (2 ^ 0) with 1 in Hc
      | change (2 ^ (52 + 1)) with (2 ^ 53) in Hr; change (2 ^ 0) with 1 in Hc
      | change (2 ^ (52 + 0)) with (2 ^ 52) in Hr; change (2 ^ 1) with 2 in Hc
      | change (2 ^ (52 + 1)) with (2 ^ 53) in Hr; change (2 ^ 1) with 2 in Hc ];
      nia.
Qed.

(* ================================================================= *)
(** * The handlers against the specification's steps *)

Lemma get_js_or_empty (v : value) (k : string) :
  get (js_or v (VObj ∅)) k = get v k.
Proof.
  unfold js_or. destruct (ToBoolean v) eqn:E; [reflexivity|].
  destruct v; simpl in *; try reflexivity. discriminate.
Qed.

Lemma is_nullish_js_or_empty (v : value) :
  is_nullish (js_or v (VObj ∅)) = false.
Proof.
  unfold js_or. destruct (ToBoolean v) eqn:E; [|reflexivity].
  destruct v; simpl in *; try reflexivity; discriminate.
Qed.

Lemma field_verified (c : Z) (v : value) (rest : list (string * value)) :
  field (json c (object (("verified", v) :: rest))) "verified" = v.
Proof.
  unfold field, json, object, get. simpl.
  rewrite lookup_insert_eq. reflexivity.
Qed.

(** Unfolds the monads of [completion] and [prog], and nothing else. *)
Ltac step :=
  cbn [mbind mret completion_bind completion_ret prog_mbind prog_ret
       prog_bind lift try_catch run axios_get fst snd negb].

(** Both handlers follow the steps of [Spec.respond]: one case analysis
    serves the two of them. *)
Ltac verified_steps amountsMatch_step tx :=
  unfold Spec.verified_flag, Spec.amount_supplied, Spec.currency_supplied,
    Spec.currency_reported;
  fold (Spec.success_status tx);
  repeat
    (step;
     match goal with
     | |- context [is_nullish ?a] =>
         let E := fresh "E" in
         destruct (is_nullish a) eqn:E; [|rewrite amountsMatch_step by exact E]
     | |- context [Spec.amounts_match ?a ?t] =>
         destruct (Spec.amounts_match a t) as [[]|?]; [| |reflexivity]
     | |- context [ToBoolean ?c && ToBoolean ?t] =>
         destruct (ToBoolean c && ToBoolean t)
     | |- context [call_toUpperCase ?n ?c] =>
         destruct (call_toUpperCase n c) as [?|?]; [|reflexivity]
     end);
  step;
  repeat match goal with
         | |- context [String.eqb ?c ?t] => destruct (String.eqb c t)
         end;
  destruct (Spec.success_status tx); reflexivity.

Ltac follow_steps amountsMatch_step :=
  unfold Spec.respond;
  match goal with
  | |- context [destructure ?b] =>
      destruct (destructure b) as [[[[? ?] ?] ?]|?]; [|reflexivity]
  end;
  step;
  match goal with
  | |- context [negb (ToBoolean ?r)] =>
      destruct (ToBoolean r); [|reflexivity];
      step;
      destruct (encodeURIComponent r) as [?|?]; [|reflexivity]
  end;
  step;
  match goal with
  | |- context [verify_request ?k ?a] =>
      fold (verify_request k a);
      match goal with
      | |- context [?gw (verify_request k a)] =>
          destruct (gw (verify_request k a)) as [?|?]; [|reflexivity]
      end
  end;
  step;
  match goal with
  | |- context [get ?d "data"] =>
      fold (malformed d); destruct (malformed d); [reflexivity|];
      verified_steps amountsMatch_step (get d "data")
  end.

Section Refinement.
Context `{Runtime}.

Lemma destructure_js_or_empty (b : value) :
  is_nullish b = false ->
  destructure (js_or b (VObj ∅)) = destructure b.
Proof.
  intros Hb. unfold destructure.
  rewrite is_nullish_js_or_empty, Hb, !get_js_or_empty. reflexivity.
Qed.

(** The helper of either file is step 7, once an amount is supplied. *)
Lemma server_amountsMatch (amount txAmount : value) :
  is_nullish amount = false ->
  Server.amountsMatch amount txAmount = Spec.amounts_match amount txAmount.
Proof.
  intros Ha. unfold Server.amountsMatch, Spec.amounts_match. rewrite Ha.
  destruct (Number amount) as [a|e]; [|reflexivity]. step.
  destruct (isNaN a); [reflexivity|].
  destruct (Number txAmount) as [t|e]; [|reflexivity]. step.
  unfold Spec.dual_interpretation.
  destruct (strict_eq t (Math_round a)); [reflexivity|].
  destruct (strict_eq t (Math_round (mul a (of_Z 100)))); reflexivity.
Qed.


Lemma server_respond (key : string) (b : value)
    (gateway : axios_request -> axios_outcome) :
  run gateway (Server.verify_payment key b)
  = Spec.respond server_failure key b gateway.
Proof.
  unfold Server.verify_payment. follow_steps server_amountsMatch.
Qed.

Lemma serverless_amountsMatch (amount txAmount : value) :
  is_nullish amount = false ->
  Serverless.amountsMatch amount txAmount = Spec.amounts_match amount txAmount.
Proof. apply server_amountsMatch. Qed.

Lemma serverless_respond (key : string) (b : value)
    (gateway : axios_request -> axios_outcome) :
  key <> ""%string ->
  run gateway (Serverless.handler (Some key) (post b))
  = Spec.respond serverless_failure key (js_or b (VObj ∅)) gateway.
Proof.
  intros Hk. destruct key as [|c key']; [congruence|].
  unfold Serverless.handler, post.
  cbn [Serverless.method Serverless.req_body].
  change (String.eqb "POST" "OPTIONS") with false.
  change (String.eqb "POST" "POST") with true.
  cbv iota. cbn [negb].
  follow_steps serverless_amountsMatch.
Qed.
End Refinement.


Section Respond.
Context `{Runtime}.

Lemma serverless_respond_body (key : string) (b : value)
    (gateway : axios_request -> axios_outcome) :
  key <> ""%string ->
  is_nullish b = false ->
  run gateway (Serverless.handler (Some key) (post b))
  = Spec.respond serverless_failure key b gateway.
Proof.
  intros Hk Hb. rewrite serverless_respond by assumption.
  unfold Spec.respond. rewrite destructure_js_or_empty by assumption.
  reflexivity.
Qed.

Lemma respond_falsy_reference (failure : js_error -> response) (key : string)
    (b : value) (gateway : axios_request -> axios_outcome) :
  is_nullish b = false ->
  ToBoolean (get b "reference") = false ->
  Spec.respond failure key b gateway = (Normal missing_reference, []).
Proof.
  intros Hb Hr. unfold Spec.respond, destructure. rewrite Hb, Hr. reflexivity.
Qed.

Lemma respond_resolved (failure : js_error -> response) (key : string)
    (b : value) (gateway : axios_request -> axios_outcome)
    (encoded : string) (d : value) :
  is_nullish b = false ->
  ToBoolean (get b "reference") = true ->
  encodeURIComponent (get b "reference") = Normal encoded ->
  gateway (verify_request key encoded) = Resolved d ->
  Spec.respond failure key b gateway
  = (Normal (if malformed d then invalid_upstream
             else match Spec.verified_flag (get b "amount") (get b "currency")
                          (get d "data") with
                  | Normal verified => verification_result verified (get d "data")
                  | Throw e => failure e
                  end),
     [verify_request key encoded]).
Proof.
  intros Hb Hr He Hg. unfold Spec.respond, destructure.
  rewrite Hb, Hr, He, Hg. reflexivity.
Qed.

(** A response whose flag is true comes from a verification that was
    carried out, with a flag that is true. *)
Lemma respond_verified (failure : js_error -> response) (key : string)
    (b : value) (gateway : axios_request -> axios_outcome)
    (r : response) (calls : list axios_request) :
  (forall e, field (failure e) "verified" = VBool false) ->
  Spec.respond failure key b gateway = (Normal r, calls) ->
  field r "verified" = VBool true ->
  exists encoded d,
    calls = [verify_request key encoded]
    /\ gateway (verify_request key encoded) = Resolved d
    /\ Spec.verified_flag (get b "amount") (get b "currency") (get d "data")
       = Normal true.
Proof.
  intros Hfail. unfold Spec.respond, destructure.
  destruct (is_nullish b).
  { intros [= <- <-]. rewrite Hfail. discriminate. }
  destruct (ToBoolean (get b "reference")); cbn [negb].
  2:{ intros [= <- <-]. discriminate. }
  destruct (encodeURIComponent (get b "reference")) as [encoded|e].
  2:{ intros [= <- <-]. rewrite Hfail. discriminate. }
  destruct (gateway (verify_request key encoded)) as [d|e] eqn:Hg.
  2:{ intros [= <- <-]. rewrite Hfail. discriminate. }
  destruct (malformed d).
  { intros [= <- <-]. discriminate. }
  destruct (Spec.verified_flag _ _ _) as [v|e] eqn:Hv.
  2:{ intros [= <- <-]. rewrite Hfail. discriminate. }
  intros [= <- <-]. unfold verification_result. rewrite field_verified.
  intros [= ->]. exists encoded, d. auto.
Qed.

Lemma verified_flag_true (amount currency tx : value) :
  Spec.verified_flag amount currency tx = Normal true ->
  Spec.guarded_condition amount currency tx.
Proof.
  unfold Spec.verified_flag, Spec.guarded_condition.
  destruct (Spec.amount_supplied amount) eqn:Ea.
  - destruct (Spec.amounts_match amount (get tx "amount")) as [m|e]; [|discriminate].
    step.
    destruct (Spec.currency_supplied currency) eqn:Ec;
      destruct (Spec.currency_reported tx) eqn:Et; cbn [andb]; step;
      try solve [intros [= Hv];
                 destruct (Spec.success_status tx), m; try discriminate; auto].
    unfold Spec.currency_supplied, Spec.currency_reported in *.
    destruct currency as [| | | |c| |]; try discriminate;
      destruct (get tx "currency") as [| | | |t| |]; try discriminate; step.
    intros [= Hv]. unfold Spec.currency_matches.
    destruct (Spec.success_status tx), m, (String.eqb _ _);
      try discriminate; auto.
  - step.
    destruct (Spec.currency_supplied currency) eqn:Ec;
      destruct (Spec.currency_reported tx) eqn:Et; cbn [andb]; step;
      try solve [intros [= Hv];
                 destruct (Spec.success_status tx); try discriminate; auto].
    unfold Spec.currency_supplied, Spec.currency_reported in *.
    destruct currency as [| | | |c| |]; try discriminate;
      destruct (get tx "currency") as [| | | |t| |]; try discriminate; step.
    intros [= Hv]. unfold Spec.currency_matches.
    destruct (Spec.success_status tx), (String.eqb _ _);
      try discriminate; auto.
Qed.

(** The amount check, when it can be carried out and when not. *)
Lemma amounts_match_clean (amount tx : value) :
  Spec.amount_supplied amount = true ->
  Spec.amount_check_clean amount tx = true ->
  Spec.amounts_match amount (get tx "amount")
  = Normal (Spec.amount_matches (Spec.number_of amount)
              (Spec.number_of (get tx "amount"))).
Proof.
  intros Hs. unfold Spec.amount_check_clean, Spec.amounts_match,
    Spec.amount_matches, Spec.converts, Spec.number_of.
  rewrite Hs. cbn [negb orb].
  destruct (Number amount) as [a|e]; [|discriminate]. step. cbn [andb].
  destruct (isNaN a); [reflexivity|]. cbn [orb].
  destruct (Number (get tx "amount")) as [t|e]; [|discriminate]. reflexivity.
Qed.

Lemma amounts_match_unclean (amount tx : value) :
  Spec.amount_check_clean amount tx = false ->
  Spec.amount_supplied amount = true
  /\ exists e, Spec.amounts_match amount (get tx "amount") = Throw e.
Proof.
  unfold Spec.amount_check_clean, Spec.amounts_match, Spec.converts,
    Spec.number_of.
  destruct (Spec.amount_supplied amount); [|discriminate]. cbn [negb orb].
  intros Hc. split; [reflexivity|].
  destruct (Number amount) as [a|e]; [|eauto]. step. cbn [andb] in Hc.
  destruct (isNaN a); [discriminate|]. cbn [orb] in Hc.
  destruct (Number (get tx "amount")) as [t|e]; [discriminate | eauto].
Qed.

(** When the checks can be carried out no step throws, and the flag is
    the conjunction the specification describes. *)
Lemma verified_flag_clean (amount currency tx : value) :
  Spec.checks_clean amount currency tx = true ->
  Spec.verified_flag amount currency tx
  = Normal (Spec.expected_verified amount currency tx).
Proof.
  unfold Spec.checks_clean. intros [Ha Hc]%andb_prop.
  unfold Spec.verified_flag, Spec.expected_verified, Spec.amount_ok,
    Spec.currency_ok.
  unfold Spec.currency_check_clean in Hc.
  destruct (Spec.amount_supplied amount) eqn:Es.
  - rewrite (amounts_match_clean amount tx Es Ha). step. cbn [negb orb].
    generalize (Spec.amount_matches (Spec.number_of amount)
                  (Spec.number_of (get tx "amount"))) as m.
    intros m.
    destruct (Spec.currency_supplied currency && Spec.currency_reported tx);
      cbn [negb orb] in *; step.
    + destruct currency; try discriminate.
      destruct (get tx "currency"); try discriminate. step. reflexivity.
    + rewrite andb_true_r. reflexivity.
  - step. cbn [negb orb].
    destruct (Spec.currency_supplied currency && Spec.currency_reported tx);
      cbn [negb orb] in *; step.
    + destruct currency; try discriminate.
      destruct (get tx "currency"); try discriminate. step.
      rewrite andb_true_r. reflexivity.
    + rewrite !andb_true_r. reflexivity.
Qed.

Lemma verified_flag_unclean (amount currency tx : value) :
  Spec.checks_clean amount currency tx = false ->
  exists e, Spec.verified_flag amount currency tx = Throw e.
Proof.
  unfold Spec.checks_clean. intros Hc.
  unfold Spec.verified_flag.
  destruct (Spec.amount_check_clean amount tx) eqn:Ha.
  - cbn [andb] in Hc. unfold Spec.currency_check_clean in Hc.
    destruct (Spec.currency_supplied currency && Spec.currency_reported tx);
      [|discriminate]. cbn [negb orb] in Hc.
    assert (exists m, (if Spec.amount_supplied amount
                       then Spec.amounts_match amount (get tx "amount")
                       else Normal true) = Normal m) as [m ->].
    { destruct (Spec.amount_supplied amount) eqn:Es; [|eauto].
      rewrite (amounts_match_clean amount tx Es Ha). eauto. }
    step.
    destruct currency; try (eexists; reflexivity).
    destruct (get tx "currency"); try (eexists; reflexivity).
    discriminate.
  - destruct (amounts_match_unclean amount tx Ha) as [-> [e ->]].
    eexists. reflexivity.
Qed.

End Respond.


(* ================================================================= *)
(** * The claims *)

(** C1, as the specification states it, fails: with a supplied currency
    and a gateway transaction that reports none, the flag is true although
    the currencies do not match. *)
Lemma stated_invariant_fails :
  let b := object [("reference", VStr "T1"); ("currency", VStr "USD")] in
  let d := object [("status", VBool true);
                   ("data", object [("status", VStr "success");
                                    ("amount", VNum (of_Z 5000))])] in
  let x := run (fun _ => Resolved d)
             (Server.verify_payment (H := example_runtime) "sk_test" b) in
  (exists r calls, x = (Normal r, calls) /\ field r "verified" = VBool true)
  /\ ~ Spec.stated_condition (H := example_runtime)
         (get b "amount") (get b "currency") (get d "data").
Proof.
  split.
  - eexists _, _. split; reflexivity.
  - intros (_ & _ & [Hc | Hc]); vm_compute in Hc; discriminate.
Qed.

(** C1, amended. In either deployment the [verified] flag of the response
    is true only if the gateway was asked and answered with a transaction
    whose status is the string "success", and the caller supplied no
    amount or the supplied amount matches under the dual-interpretation
    rule, and the caller supplied no currency, or the gateway reports no
    currency, or the two match case-insensitively, that is, are strings
    with the same [toUpperCase]. *)
Theorem verified_only_if `{Runtime} (key : string) (env_key : option string)
    (method : string) (b : value) (gateway : axios_request -> axios_outcome)
    (r : response) (calls : list axios_request) :
  run gateway (Server.verify_payment key b) = (Normal r, calls)
  \/ run gateway
       (Serverless.handler env_key
          {| Serverless.method := method; Serverless.req_body := b |})
     = (Normal r, calls) ->
  field r "verified" = VBool true ->
  exists rq d,
    calls = [rq] /\ gateway rq = Resolved d
    /\ Spec.guarded_condition (get b "amount") (get b "currency") (get d "data").
Proof.
  intros [Hrun | Hrun] Hv.
  - rewrite server_respond in Hrun.
    destruct (respond_verified server_failure key b gateway r calls
                ltac:(intros e; apply field_verified) Hrun Hv)
      as (encoded & d & -> & Hg & Hf).
    exists (verify_request key encoded), d.
    auto using verified_flag_true.
  - assert (method = "POST"%string /\ exists k, env_key = Some k /\ k <> ""%string)
      as (-> & k & -> & Hk).
    { unfold Serverless.handler in Hrun. cbn [Serverless.method] in Hrun.
      destruct (String.eqb_spec method "OPTIONS").
      { injection Hrun as <- <-. discriminate. }
      destruct (String.eqb_spec method "POST"); cbn [negb] in Hrun.
      2:{ injection Hrun as <- <-. discriminate. }
      split; [assumption|].
      destruct env_key as [[|c k]|].
      - injection Hrun as <- <-. discriminate.
      - exists (String c k). split; [reflexivity | discriminate].
      - injection Hrun as <- <-. discriminate. }
    change {| Serverless.method := "POST"; Serverless.req_body := b |}
      with (post b) in Hrun.
    rewrite serverless_respond in Hrun by assumption.
    destruct (respond_verified serverless_failure k _ gateway r calls
                ltac:(intros e; apply field_verified) Hrun Hv)
      as (encoded & d & -> & Hg & Hf).
    rewrite !get_js_or_empty in Hf.
    exists (verify_request k encoded), d.
    auto using verified_flag_true.
Qed.

Lemma verified_only_if_witness :
  let b := object [("reference", VStr "T1"); ("amount", VStr "75000");
                   ("currency", VStr "ngn")] in
  let tx := object [("status", VStr "success"); ("amount", VNum (of_Z 7500000));
                    ("currency", VStr "NGN")] in
  exists rq d,
    [verify_request "sk_test" "T1"] = [rq]
    /\ (fun _ => Resolved (object [("data", tx)])) rq = Resolved d
    /\ Spec.guarded_condition (H := example_runtime)
         (get b "amount") (get b "currency") (get d "data").
Proof.
  intros b tx.
  apply (verified_only_if (H := example_runtime) "sk_test" None "POST" b
           (fun _ => Resolved (object [("data", tx)]))
           (verification_result true tx)).
  - left. reflexivity.
  - reflexivity.
Defined.






(** C3, as the specification states it, fails for large amounts: the
    quotient [A / 100] is rounded to a Number, and for
    [A = 3518437208883202] its product with 100 rounds to [A + 1]. *)
Lemma hundredth_of_large_amount_mismatches :
  Server.amountsMatch (H := example_runtime)
    (VNum (div (of_Z 3518437208883202) (of_Z 100)))
    (VNum (of_Z 3518437208883202))
  = Normal false.
Proof. vm_compute. reflexivity. Qed.

Lemma Qval_of_Z_small (A : Z) :
  0 < A < 2 ^ 53 -> (Qval (of_Z A) == inject_Z A)%Q.
Proof.
  intros HA. rewrite of_Z_small by assumption.
  assert (0 < Zdigits2 A <= 53) as Hd.
  { split; [destruct A; simpl; lia|]. apply Zdigits2_le; lia. }
  pose proof (Z.pow_pos_nonneg 2 (53 - Zdigits2 A) ltac:(lia) ltac:(lia)) as Hp.
  unfold Qval. rewrite Z2Pos.id by nia.
  destruct (Z.leb_spec 0 (Zdigits2 A - 53)) as [H0|H0].
  - replace (Zdigits2 A - 53) with 0 by lia.
    replace (53 - Zdigits2 A) with 0 by lia.
    rewrite !Z.pow_0_r, !Z.mul_1_r. reflexivity.
  - unfold Qeq, inject_Z. cbn [Qnum Qden].
    replace (- (Zdigits2 A - 53)) with (53 - Zdigits2 A) by lia.
    rewrite Z2Pos.id by lia. lia.
Qed.

Lemma Math_round_of_Z (A : Z) :
  0 <= A < 2 ^ 53 -> strict_eq (of_Z A) (Math_round (of_Z A)) = true.
Proof.
  intros HA. destruct (Z.eq_dec A 0) as [->|Hne]; [reflexivity|].
  apply Math_round_near.
  - rewrite of_Z_small by lia. reflexivity.
  - rewrite Qval_of_Z_small by lia. lra.
  - rewrite Qval_of_Z_small by lia. lra.
Qed.

(** C3, amended. For every gateway amount [A] in the smallest currency
    unit that is a Number ([0 <= A < 2 ^ 53]) the client input [A]
    satisfies [amountsMatch] against [A], and so does the client input
    [A / 100] as long as [A < 100 * 2 ^ 45 = 3518437208883200]; for
    [A = 7500000] the client amounts 7500000 and 75000 match and 12345
    does not, as numbers and as strings. *)
Theorem both_encodings_match `{Runtime} (A : Z) :
  0 <= A < 2 ^ 53 ->
  (Server.amountsMatch (VNum (of_Z A)) (VNum (of_Z A)) = Normal true
   /\ (A < 100 * 2 ^ 45 ->
       Server.amountsMatch (VNum (div (of_Z A) (of_Z 100))) (VNum (of_Z A))
       = Normal true))
  /\ (Server.amountsMatch (VNum (of_Z 7500000)) (VNum (of_Z 7500000)) = Normal true
      /\ Server.amountsMatch (VNum (of_Z 75000)) (VNum (of_Z 7500000)) = Normal true
      /\ Server.amountsMatch (VNum (of_Z 12345)) (VNum (of_Z 7500000)) = Normal false
      /\ Server.amountsMatch (VStr "7500000") (VNum (of_Z 7500000)) = Normal true
      /\ Server.amountsMatch (VStr "75000") (VNum (of_Z 7500000)) = Normal true
      /\ Server.amountsMatch (VStr "12345") (VNum (of_Z 7500000)) = Normal false)
  /\ (forall a t, Serverless.amountsMatch a t = Server.amountsMatch a t).
Proof.
  intros HA. split; [split|split].
  - unfold Server.amountsMatch. cbn [is_nullish Number]. step.
    rewrite of_Z_not_nan, Math_round_of_Z by assumption. reflexivity.
  - intros Hb. destruct (Z.eq_dec A 0) as [->|Hne]; [reflexivity|].
    unfold Server.amountsMatch. cbn [is_nullish Number]. step.
    assert (isNaN (div (of_Z A) (of_Z 100)) = false) as ->.
    { rewrite of_Z_small by lia.
      assert (0 < Zdigits2 A <= 53) as Hd.
      { split; [destruct A; simpl; lia|]. apply Zdigits2_le; lia. }
      pose proof (Zdigits2_bounds A ltac:(lia)) as HAb.
      pose proof (Z.pow_pos_nonneg 2 (53 - Zdigits2 A) ltac:(lia) ltac:(lia)).
      rewrite div_100_pack; [apply pack_not_nan, rne_nonneg | | lia].
      - nia.
      - unfold m100.
        destruct (A * 2 ^ (53 - Zdigits2 A) <? 25 * 2 ^ 48); lia.
      - split.
        + replace (2 ^ 52) with (2 ^ (Zdigits2 A - 1) * 2 ^ (53 - Zdigits2 A)).
          * nia.
          * rewrite <- Z.pow_add_r by lia. f_equal. lia.
        + replace (2 ^ 53) with (2 ^ Zdigits2 A * 2 ^ (53 - Zdigits2 A)).
          * nia.
          * rewrite <- Z.pow_add_r by lia. f_equal. lia. }
    destruct (strict_eq (of_Z A) (Math_round (div (of_Z A) (of_Z 100))));
      [reflexivity|].
    rewrite times_100_of_div_100 by lia. reflexivity.
  - repeat split; vm_compute; reflexivity.
  - reflexivity.
Qed.

Lemma both_encodings_match_witness :
  (Server.amountsMatch (H := example_runtime)
     (VNum (of_Z 1999)) (VNum (of_Z 1999)) = Normal true
   /\ (1999 < 100 * 2 ^ 45 ->
       Server.amountsMatch (H := example_runtime)
         (VNum (div (of_Z 1999) (of_Z 100))) (VNum (of_Z 1999))
       = Normal true))
  /\ (Server.amountsMatch (H := example_runtime)
        (VNum (of_Z 7500000)) (VNum (of_Z 7500000)) = Normal true
      /\ Server.amountsMatch (H := example_runtime)
           (VNum (of_Z 75000)) (VNum (of_Z 7500000)) = Normal true
      /\ Server.amountsMatch (H := example_runtime)
           (VNum (of_Z 12345)) (VNum (of_Z 7500000)) = Normal false
      /\ Server.amountsMatch (H := example_runtime)
           (VStr "7500000") (VNum (of_Z 7500000)) = Normal true
      /\ Server.amountsMatch (H := example_runtime)
           (VStr "75000") (VNum (of_Z 7500000)) = Normal true
      /\ Server.amountsMatch (H := example_runtime)
           (VStr "12345") (VNum (of_Z 7500000)) = Normal false)
  /\ (forall a t, Serverless.amountsMatch (H := example_runtime) a t
                  = Server.amountsMatch (H := example_runtime) a t).
Proof.
  apply (both_encodings_match (H := example_runtime) 1999). lia.
Defined.


(** C4 fails on the server for a POST without a body: [req.body] is
    [undefined], destructuring it throws, and the [catch] block answers
    500 with the message of the [TypeError], not 400 "Missing reference".
    The serverless function reads [req.body || {}] and answers that
    request with 400, as the claim says. Neither calls the gateway. *)
Theorem bodyless_post_is_500_on_the_server `{Runtime} (key : string)
    (gateway : axios_request -> axios_outcome) :
  key <> ""%string ->
  run gateway (Server.verify_payment key VUndefined)
  = (Normal (json 500 (object
       [("verified", VBool false);
        ("error", VStr (TypeError_message (CannotDestructure VUndefined)))])),
     [])
  /\ run gateway (Serverless.handler (Some key) (post VUndefined))
     = (Normal missing_reference, [])
  /\ status missing_reference = 400.
Proof.
  intros Hk. split; [|split].
  - reflexivity.
  - rewrite serverless_respond by assumption. reflexivity.
  - reflexivity.
Qed.

Lemma bodyless_post_is_500_on_the_server_witness :
  run (fun _ => Resolved VNull)
    (Server.verify_payment (H := example_runtime) "sk_test" VUndefined)
  = (Normal (json 500 (object
       [("verified", VBool false);
        ("error", VStr "Cannot destructure property 'reference' of 'req.body' as it is undefined.")])),
     [])
  /\ run (fun _ => Resolved VNull)
       (Serverless.handler (H := example_runtime) (Some "sk_test"%string)
          (post VUndefined))
     = (Normal missing_reference, [])
  /\ status missing_reference = 400.
Proof.
  apply (bodyless_post_is_500_on_the_server (H := example_runtime) "sk_test"
           (fun _ => Resolved VNull)).
  discriminate.
Defined.

(** C5. When the gateway answers the verification call with a body that
    is absent or lacks the inner [data], both deployments answer with
    status 500 and the error "Invalid response from Paystack", not with a
    200 carrying [verified: false]. *)
Theorem malformed_upstream_is_500 `{Runtime} (key : string) (b : value)
    (gateway : axios_request -> axios_outcome) (encoded : string) (d : value) :
  key <> ""%string ->
  is_nullish b = false ->
  ToBoolean (get b "reference") = true ->
  encodeURIComponent (get b "reference") = Normal encoded ->
  gateway (verify_request key encoded) = Resolved d ->
  ToBoolean d = false \/ ToBoolean (get d "data") = false ->
  both_run key b gateway (Normal invalid_upstream, [verify_request key encoded])
  /\ status invalid_upstream = 500
  /\ field invalid_upstream "verified" = VBool false
  /\ field invalid_upstream "error" = VStr "Invalid response from Paystack".
Proof.
  intros Hk Hb Hr He Hg Hd.
  assert (malformed d = true) as Hm.
  { unfold malformed. destruct Hd as [-> | ->]; [reflexivity|].
    apply orb_true_r. }
  repeat split.
  - rewrite server_respond, (respond_resolved _ _ _ _ encoded d) by assumption.
    rewrite Hm. reflexivity.
  - rewrite serverless_respond_body by assumption.
    rewrite (respond_resolved _ _ _ _ encoded d) by assumption.
    rewrite Hm. reflexivity.
Qed.

Lemma malformed_upstream_is_500_witness :
  both_run (H := example_runtime) "sk_test" (object [("reference", VStr "T1")])
    (fun _ => Resolved (object [("status", VBool false)]))
    (Normal invalid_upstream, [verify_request "sk_test" "T1"])
  /\ status invalid_upstream = 500
  /\ field invalid_upstream "verified" = VBool false
  /\ field invalid_upstream "error" = VStr "Invalid response from Paystack".
Proof.
  apply (malformed_upstream_is_500 (H := example_runtime) "sk_test"
           (object [("reference", VStr "T1")])
           (fun _ => Resolved (object [("status", VBool false)])) "T1"
           (object [("status", VBool false)])).
  - discriminate.
  - reflexivity.
  - reflexivity.
  - reflexivity.
  - reflexivity.
  - right. reflexivity.
Defined.

Section Verification.
Context `{Runtime}.

(** A request that reaches the gateway and gets a well-formed answer is
    answered with the result of the verification, or from the [catch]
    block when a check throws. *)
Lemma both_run_resolved (key : string) (b : value)
    (gateway : axios_request -> axios_outcome) (encoded : string) (d : value) :
  key <> ""%string ->
  is_nullish b = false ->
  ToBoolean (get b "reference") = true ->
  encodeURIComponent (get b "reference") = Normal encoded ->
  gateway (verify_request key encoded) = Resolved d ->
  malformed d = false ->
  run gateway (Server.verify_payment key b)
  = (Normal match Spec.verified_flag (get b "amount") (get b "currency")
                    (get d "data") with
            | Normal verified => verification_result verified (get d "data")
            | Throw e => server_failure e
            end,
     [verify_request key encoded])
  /\ run gateway (Serverless.handler (Some key) (post b))
     = (Normal match Spec.verified_flag (get b "amount") (get b "currency")
                       (get d "data") with
               | Normal verified => verification_result verified (get d "data")
               | Throw e => serverless_failure e
               end,
        [verify_request key encoded]).
Proof.
  intros Hk Hb Hr He Hg Hm. split.
  - rewrite server_respond, (respond_resolved _ _ _ _ encoded d) by assumption.
    rewrite Hm. reflexivity.
  - rewrite serverless_respond_body by assumption.
    rewrite (respond_resolved _ _ _ _ encoded d) by assumption.
    rewrite Hm. reflexivity.
Qed.

(** The currency check, when it is skipped or passes, leaves the flag as
    it is without a currency. *)
Lemma verified_flag_skips_currency (amount currency tx : value) :
  Spec.currency_supplied currency && Spec.currency_reported tx = false
  \/ Spec.currency_matches currency (get tx "currency") = true ->
  Spec.verified_flag amount currency tx = Spec.verified_flag amount VUndefined tx.
Proof.
  intros Hc. unfold Spec.verified_flag.
  destruct (if Spec.amount_supplied amount
            then Spec.amounts_match amount (get tx "amount")
            else Normal true) as [m|e]; [|reflexivity].
  step. change (Spec.currency_supplied VUndefined) with false. cbn [andb].
  destruct (Spec.currency_supplied currency && Spec.currency_reported tx) eqn:Ea;
    [|reflexivity].
  destruct Hc as [Hc | Hc]; [discriminate|].
  unfold Spec.currency_matches in Hc.
  destruct currency; try discriminate.
  destruct (get tx "currency"); try discriminate.
  cbn [call_toUpperCase]. step. rewrite Hc. reflexivity.
Qed.

(** When it applies and the currencies do not match, the flag is false. *)
Lemma verified_flag_mismatch (amount currency tx : value) (verified : bool) :
  Spec.currency_supplied currency && Spec.currency_reported tx = true ->
  Spec.currency_matches currency (get tx "currency") = false ->
  Spec.verified_flag amount currency tx = Normal verified ->
  verified = false.
Proof.
  intros Ha Hc. unfold Spec.verified_flag. rewrite Ha.
  destruct (if Spec.amount_supplied amount
            then Spec.amounts_match amount (get tx "amount")
            else Normal true) as [m|e]; [|discriminate].
  step. unfold Spec.currency_matches in Hc.
  destruct currency; try discriminate.
  destruct (get tx "currency"); try discriminate.
  cbn [call_toUpperCase]. step. rewrite Hc. intros [= <-]. apply andb_false_r.
Qed.

End Verification.

Lemma get_without_currency (o : gmap string value) (k : string) :
  k <> "currency"%string ->
  get (VObj (delete "currency"%string o)) k = get (VObj o) k.
Proof.
  intros Hk. unfold get. rewrite lookup_delete_ne by congruence. reflexivity.
Qed.

Lemma get_currency_deleted (o : gmap string value) :
  get (VObj (delete "currency"%string o)) "currency" = VUndefined.
Proof. unfold get. rewrite lookup_delete_eq. reflexivity. Qed.

(** Upper case on ASCII text against the comparison that ignores case. *)
Lemma code_bounds (c : ascii) : 0 <= code c < 256.
Proof. unfold code. pose proof (N_ascii_bounded c). lia. Qed.

Lemma code_upper_ascii (c : ascii) :
  code (upper_ascii c)
  = if in_range 97 122 (code c) then code c - 32 else code c.
Proof.
  unfold upper_ascii. cbv zeta.
  destruct (in_range 97 122 (code c)) eqn:E; [|reflexivity].
  pose proof (code_bounds c). unfold in_range in E.
  unfold code at 1. rewrite N_ascii_embedding by lia. lia.
Qed.

Lemma ascii_eqb_code (x y : ascii) : Ascii.eqb x y = (code x =? code y).
Proof.
  destruct (Ascii.eqb_spec x y) as [->|Hne].
  - symmetry. apply Z.eqb_refl.
  - symmetry. apply Z.eqb_neq. intros Hc. apply Hne.
    rewrite <- (ascii_N_embedding x), <- (ascii_N_embedding y).
    f_equal. apply N2Z.inj. exact Hc.
Qed.

Lemma eqb_upper_ascii (x y : ascii) :
  Ascii.eqb (upper_ascii x) (upper_ascii y) = Spec.same_character x y.
Proof.
  rewrite ascii_eqb_code, !code_upper_ascii.
  unfold Spec.same_character, Spec.is_letter, in_range.
  pose proof (code_bounds x). pose proof (code_bounds y).
  generalize dependent (code x). generalize dependent (code y). intros m Hm n Hn.
  repeat match goal with
         | |- context [?a <=? ?b] => destruct (Z.leb_spec a b)
         end; cbn [andb orb];
  repeat match goal with
         | |- context [?a =? ?b] => destruct (Z.eqb_spec a b)
         end; cbn [andb orb]; try reflexivity; lia.
Qed.

Lemma eqb_upper_ascii_text (c t : string) :
  String.eqb (upper_ascii_text c) (upper_ascii_text t)
  = Spec.equal_ignoring_case c t.
Proof.
  revert t. induction c as [|x c IH]; intros [|y t]; try reflexivity.
  cbn [upper_ascii_text Spec.equal_ignoring_case String.eqb].
  rewrite eqb_upper_ascii, IH.
  destruct (Spec.same_character x y); reflexivity.
Qed.

(** C6, as the specification states it, fails: the gateway answers well
    and reports the currency as a number; the request names a currency,
    so the two are compared, [tx.currency.toUpperCase] is no function,
    and the answer is 500 from the [catch] block although neither the
    transport nor the gateway failed. *)
Lemma well_formed_answer_gets_500 :
  let b := object [("reference", VStr "T1"); ("currency", VStr "NGN")] in
  let d := object [("status", VBool true);
                   ("data", object [("status", VStr "success");
                                    ("amount", VNum (of_Z 7500000));
                                    ("currency", VNum (of_Z 566))])] in
  malformed d = false
  /\ exists r,
       run (fun _ => Resolved d)
         (Server.verify_payment (H := example_runtime) "sk_test" b)
       = (Normal r, [verify_request "sk_test" "T1"])
       /\ status r = 500
       /\ field r "verified" = VBool false
       /\ field r "error" = VStr "tx.currency.toUpperCase is not a function".
Proof.
  split; [reflexivity|]. eexists. split; [reflexivity|].
  split; [reflexivity|]. split; reflexivity.
Qed.

(** C6, amended. A request that reaches the gateway and gets a
    well-formed answer gets status 200 and the body
    [{verified, data: transaction}] whatever the flag is, as long as the
    optional checks can be carried out (the amounts that are converted
    convert, and the currencies that are compared are strings); a status
    other than "success", an amount mismatch or a currency mismatch then
    gives [verified: false] in that 200 response. When a check throws,
    the answer is 500 from the [catch] block. So a status other than 200
    of such a request means that the gateway call failed, or that its
    answer lacks the wrapper shape, or that a check threw. *)
Theorem verification_is_200 `{Runtime} (key : string) (b : value)
    (gateway : axios_request -> axios_outcome) (encoded : string) :
  key <> ""%string ->
  is_nullish b = false ->
  ToBoolean (get b "reference") = true ->
  encodeURIComponent (get b "reference") = Normal encoded ->
  let amount := get b "amount" in
  let currency := get b "currency" in
  let rq := verify_request key encoded in
  (forall d, gateway rq = Resolved d ->
     malformed d = false ->
     let tx := get d "data" in
     let verified := Spec.expected_verified amount currency tx in
     (Spec.checks_clean amount currency tx = true ->
      both_run key b gateway (Normal (verification_result verified tx), [rq])
      /\ status (verification_result verified tx) = 200
      /\ body (verification_result verified tx)
         = Json (object [("verified", VBool verified); ("data", tx)])
      /\ (Spec.success_status tx = false -> verified = false)
      /\ (Spec.amount_ok amount tx = false -> verified = false)
      /\ (Spec.currency_ok currency tx = false -> verified = false))
     /\ (Spec.checks_clean amount currency tx = false ->
         exists e,
           run gateway (Server.verify_payment key b)
           = (Normal (server_failure e), [rq])
           /\ run gateway (Serverless.handler (Some key) (post b))
              = (Normal (serverless_failure e), [rq])
           /\ status (server_failure e) = 500
           /\ status (serverless_failure e) = 500))
  /\ (forall r calls,
        run gateway (Server.verify_payment key b) = (Normal r, calls)
        \/ run gateway (Serverless.handler (Some key) (post b)) = (Normal r, calls) ->
        status r <> 200 ->
        (exists e, gateway rq = Rejected e)
        \/ (exists d, gateway rq = Resolved d
                      /\ (malformed d = true
                          \/ Spec.checks_clean amount currency (get d "data")
                             = false))).
Proof.
  intros Hk Hb Hr He amount currency rq. split.
  - intros d Hg Hm tx verified.
    destruct (both_run_resolved key b gateway encoded d Hk Hb Hr He Hg Hm)
      as [H1 H2].
    fold amount currency tx rq in H1, H2. split.
    + intros Hc. rewrite (verified_flag_clean _ _ _ Hc) in H1, H2.
      split; [split; assumption|]. split; [reflexivity|]. split; [reflexivity|].
      unfold verified, Spec.expected_verified.
      split; [|split]; intros ->; rewrite ?andb_false_r; reflexivity.
    + intros Hc. destruct (verified_flag_unclean _ _ _ Hc) as [e Hv].
      rewrite Hv in H1, H2. exists e. auto.
  - intros r calls Hrun Hst.
    destruct (gateway rq) as [d|e] eqn:Hg; [|eauto].
    right. exists d. split; [reflexivity|].
    destruct (malformed d) eqn:Hm; [auto|]. right.
    destruct (Spec.checks_clean amount currency (get d "data")) eqn:Hc;
      [|reflexivity]. exfalso.
    destruct (both_run_resolved key b gateway encoded d Hk Hb Hr He Hg Hm)
      as [H1 H2].
    fold amount currency in H1, H2.
    rewrite (verified_flag_clean _ _ _ Hc) in H1, H2.
    destruct Hrun as [Hrun | Hrun]; rewrite Hrun in *.
    + injection H1 as -> _. apply Hst. reflexivity.
    + injection H2 as -> _. apply Hst. reflexivity.
Qed.

Lemma verification_is_200_witness :
  both_run (H := example_runtime) "sk_test"
    (object [("reference", VStr "T1"); ("amount", VStr "75000");
             ("currency", VStr "ngn")])
    (fun _ => Resolved (object [("data", object [("status", VStr "abandoned");
                                                 ("amount", VNum (of_Z 7500000));
                                                 ("currency", VStr "NGN")])]))
    (Normal (verification_result false
               (object [("status", VStr "abandoned");
                        ("amount", VNum (of_Z 7500000));
                        ("currency", VStr "NGN")])),
     [verify_request "sk_test" "T1"]).
Proof.
  destruct (verification_is_200 (H := example_runtime) "sk_test"
              (object [("reference", VStr "T1"); ("amount", VStr "75000");
                       ("currency", VStr "ngn")])
              (fun _ => Resolved (object [("data", object [("status", VStr "abandoned");
                                                           ("amount", VNum (of_Z 7500000));
                                                           ("currency", VStr "NGN")])]))
              "T1") as [Hok _].
  - discriminate.
  - reflexivity.
  - reflexivity.
  - reflexivity.
  - apply (Hok _ eq_refl eq_refl). reflexivity.
Defined.

(** C7. The currencies are compared only when the caller supplied a
    currency and the gateway transaction reports one: otherwise the
    request is answered as the same request without a currency is. When
    both are there they are compared through [toUpperCase]: a match
    leaves the answer as it is without a currency, and a mismatch makes
    the flag false. On ASCII text the comparison is the one that ignores
    the case of letters, so "ngn" matches "NGN". *)
Theorem currency_check `{Runtime} (key : string) (o : gmap string value)
    (gateway : axios_request -> axios_outcome) (encoded : string) (d : value) :
  key <> ""%string ->
  ToBoolean (get (VObj o) "reference") = true ->
  encodeURIComponent (get (VObj o) "reference") = Normal encoded ->
  gateway (verify_request key encoded) = Resolved d ->
  malformed d = false ->
  let tx := get d "data" in
  let currency := get (VObj o) "currency" in
  let applied := Spec.currency_supplied currency && Spec.currency_reported tx in
  let without_currency := VObj (delete "currency"%string o) in
  (applied = false \/ Spec.currency_matches currency (get tx "currency") = true ->
   run gateway (Server.verify_payment key (VObj o))
   = run gateway (Server.verify_payment key without_currency)
   /\ run gateway (Serverless.handler (Some key) (post (VObj o)))
      = run gateway (Serverless.handler (Some key) (post without_currency)))
  /\ (applied = true ->
      Spec.currency_matches currency (get tx "currency") = false ->
      forall r calls,
        run gateway (Server.verify_payment key (VObj o)) = (Normal r, calls)
        \/ run gateway (Serverless.handler (Some key) (post (VObj o)))
           = (Normal r, calls) ->
        calls = [verify_request key encoded]
        /\ field r "verified" = VBool false)
  /\ (forall c t, is_ascii c = true -> is_ascii t = true ->
        Spec.currency_matches (VStr c) (VStr t) = Spec.equal_ignoring_case c t)
  /\ Spec.currency_matches (VStr "ngn") (VStr "NGN") = true
  /\ Spec.currency_matches (VStr "NGN") (VStr "NGN") = true
  /\ Spec.currency_matches (VStr "usd") (VStr "NGN") = false.
Proof.
  intros Hk Hr He Hg Hm tx currency applied without_currency.
  destruct (both_run_resolved key (VObj o) gateway encoded d Hk eq_refl Hr He Hg Hm)
    as [H1 H2].
  fold currency tx in H1, H2.
  split; [|split; [|split; [|repeat split]]].
  - intros Hc.
    assert (Hr' : ToBoolean (get without_currency "reference") = true).
    { unfold without_currency. rewrite get_without_currency by discriminate.
      exact Hr. }
    assert (He' : encodeURIComponent (get without_currency "reference")
                  = Normal encoded).
    { unfold without_currency. rewrite get_without_currency by discriminate.
      exact He. }
    destruct (both_run_resolved key without_currency gateway encoded d
                Hk eq_refl Hr' He' Hg Hm) as [H3 H4].
    unfold without_currency in H3, H4.
    rewrite get_currency_deleted, get_without_currency in H3, H4 by discriminate.
    fold without_currency tx in H3, H4.
    rewrite H1, H2, H3, H4.
    rewrite (verified_flag_skips_currency _ currency tx Hc). split; reflexivity.
  - intros Ha Hc r calls Hrun.
    destruct (Spec.verified_flag (get (VObj o) "amount") currency tx)
      as [v|e] eqn:Hv.
    + pose proof (verified_flag_mismatch _ _ _ _ Ha Hc Hv) as ->.
      destruct Hrun as [Hrun | Hrun]; rewrite Hrun in *.
      * injection H1 as -> ->. split; [reflexivity | apply field_verified].
      * injection H2 as -> ->. split; [reflexivity | apply field_verified].
    + destruct Hrun as [Hrun | Hrun]; rewrite Hrun in *.
      * injection H1 as -> ->. split; [reflexivity | apply field_verified].
      * injection H2 as -> ->. split; [reflexivity | apply field_verified].
  - intros c t Hc Ht. unfold Spec.currency_matches, toUpperCase.
    rewrite Hc, Ht. apply eqb_upper_ascii_text.
Qed.

Lemma currency_check_witness :
  let o : gmap string value :=
    list_to_map [("reference", VStr "T1"); ("currency", VStr "ngn")] in
  let gateway := fun _ : axios_request =>
    Resolved (object [("data", object [("status", VStr "success");
                                       ("currency", VStr "NGN")])]) in
  run gateway (Server.verify_payment (H := example_runtime) "sk_test" (VObj o))
  = run gateway (Server.verify_payment (H := example_runtime) "sk_test"
                   (VObj (delete "currency"%string o)))
  /\ run gateway (Serverless.handler (H := example_runtime) (Some "sk_test"%string)
                    (post (VObj o)))
     = run gateway (Serverless.handler (H := example_runtime) (Some "sk_test"%string)
                      (post (VObj (delete "currency"%string o)))).
Proof.
  intros o gateway.
  destruct (currency_check (H := example_runtime) "sk_test" o gateway "T1"
              (object [("data", object [("status", VStr "success");
                                        ("currency", VStr "NGN")])]))
    as [Hsame _].
  - discriminate.
  - reflexivity.
  - reflexivity.
  - reflexivity.
  - reflexivity.
  - apply Hsame. right. reflexivity.
Defined.

(** C8 fails at the request without a body: the server answers it with
    status 500, the serverless function with status 400, the flag being
    false and the data absent in both, and neither calls the gateway. *)
Theorem bodyless_post_parts_the_deployments `{Runtime} (key : string)
    (gateway : axios_request -> axios_outcome) :
  key <> ""%string ->
  observe (run gateway (Server.verify_payment key VUndefined))
  = (Some (500, VBool false, VUndefined), [])
  /\ observe (run gateway (Serverless.handler (Some key) (post VUndefined)))
     = (Some (400, VBool false, VUndefined), [])
  /\ observe (run gateway (Server.verify_payment key VUndefined))
     <> observe (run gateway (Serverless.handler (Some key) (post VUndefined))).
Proof.
  intros Hk.
  assert (observe (run gateway (Server.verify_payment key VUndefined))
          = (Some (500, VBool false, VUndefined), [])) as H1 by reflexivity.
  assert (observe (run gateway (Serverless.handler (Some key) (post VUndefined)))
          = (Some (400, VBool false, VUndefined), [])) as H2.
  { rewrite serverless_respond by assumption. reflexivity. }
  split; [exact H1|]. split; [exact H2|]. rewrite H1, H2. discriminate.
Qed.

Lemma bodyless_post_parts_the_deployments_witness :
  observe (run (fun _ => Resolved VNull)
             (Server.verify_payment (H := example_runtime) "sk_test" VUndefined))
  = (Some (500, VBool false, VUndefined), [])
  /\ observe (run (fun _ => Resolved VNull)
                (Serverless.handler (H := example_runtime) (Some "sk_test"%string)
                   (post VUndefined)))
     = (Some (400, VBool false, VUndefined), [])
  /\ observe (run (fun _ => Resolved VNull)
                (Server.verify_payment (H := example_runtime) "sk_test" VUndefined))
     <> observe (run (fun _ => Resolved VNull)
                   (Serverless.handler (H := example_runtime) (Some "sk_test"%string)
                      (post VUndefined))).
Proof.
  apply (bodyless_post_parts_the_deployments (H := example_runtime) "sk_test"
           (fun _ => Resolved VNull)).
  discriminate.
Defined.

(** X20. On every POST that carries a body and every behaviour of the
    gateway the two deployments, serving with the same credential, make
    the same calls and answer with the same status code, the same
    [verified] flag and the same [data]: for a missing reference, a
    malformed upstream body, a failed upstream call and a verification
    carried out alike. *)
Theorem deployments_agree `{Runtime} (key : string) (b : value)
    (gateway : axios_request -> axios_outcome) :
  key <> ""%string ->
  is_nullish b = false ->
  observe (run gateway (Server.verify_payment key b))
  = observe (run gateway (Serverless.handler (Some key) (post b))).
Proof.
  intros Hk Hb. rewrite server_respond, serverless_respond_body by assumption.
  unfold Spec.respond.
  destruct (destructure b) as [[[[reference email] currency] amount]|e];
    [|reflexivity].
  destruct (negb (ToBoolean reference)); [reflexivity|].
  destruct (encodeURIComponent reference) as [encoded|e]; [|reflexivity].
  destruct (gateway (verify_request key encoded)) as [d|e]; [|reflexivity].
  destruct (malformed d); [reflexivity|].
  destruct (Spec.verified_flag amount currency (get d "data")); reflexivity.
Qed.

Lemma deployments_agree_witness :
  observe (run (fun _ => Rejected {| err_response := None; err_message := VStr "" |})
             (Server.verify_payment (H := example_runtime) "sk_test"
                (object [("reference", VStr "T1")])))
  = observe (run (fun _ => Rejected {| err_response := None; err_message := VStr "" |})
               (Serverless.handler (H := example_runtime) (Some "sk_test"%string)
                  (post (object [("reference", VStr "T1")])))).
Proof.
  apply (deployments_agree (H := example_runtime) "sk_test"
           (object [("reference", VStr "T1")])
           (fun _ => Rejected {| err_response := None; err_message := VStr "" |})).
  - discriminate.
  - reflexivity.
Defined.

(** C9. Amount matching is tolerant: a numeric client amount [x] with
    [A - 0.5 <= x < A + 0.5] matches the integer gateway amount [A],
    since [Math.round] takes [x] to [A]; 100.4 matches 100. *)
Theorem amount_tolerance `{Runtime} (A : Z) (x : number) :
  is_finite x = true ->
  (inject_Z A - (1 # 2) <= Qval x)%Q ->
  (Qval x < inject_Z A + (1 # 2))%Q ->
  Server.amountsMatch (VNum x) (VNum (of_Z A)) = Normal true
  /\ Serverless.amountsMatch (VNum x) (VNum (of_Z A)) = Normal true
  /\ Server.amountsMatch (VNum (StringToNumber "100.4")) (VNum (of_Z 100))
     = Normal true.
Proof.
  intros Hf Hl Hu.
  assert (Server.amountsMatch (VNum x) (VNum (of_Z A)) = Normal true) as Hs.
  { unfold Server.amountsMatch. cbn [is_nullish Number]. step.
    assert (isNaN x = false) as -> by (destruct x; try discriminate; reflexivity).
    rewrite Math_round_near by assumption. reflexivity. }
  split; [exact Hs | split; [exact Hs | vm_compute; reflexivity]].
Qed.

Lemma amount_tolerance_witness :
  Server.amountsMatch (H := example_runtime)
    (VNum (StringToNumber "41.5")) (VNum (of_Z 42)) = Normal true
  /\ Serverless.amountsMatch (H := example_runtime)
       (VNum (StringToNumber "41.5")) (VNum (of_Z 42)) = Normal true
  /\ Server.amountsMatch (H := example_runtime)
       (VNum (StringToNumber "100.4")) (VNum (of_Z 100)) = Normal true.
Proof.
  apply (amount_tolerance (H := example_runtime) 42 (StringToNumber "41.5")).
  - reflexivity.
  - vm_compute. discriminate.
  - vm_compute. reflexivity.
Defined.

(** C10. Any falsy reference is rejected like a missing one, because the
    check is JavaScript truthiness: the number 0, [false] or [null]
    written in the JSON body get status 400 and
    [{verified: false, error: "Missing reference"}], without a call to the
    gateway. *)
Theorem falsy_reference_rejected `{Runtime} (key : string)
    (o : gmap string value) (gateway : axios_request -> axios_outcome) :
  key <> ""%string ->
  ToBoolean (get (VObj o) "reference") = false ->
  both_run key (VObj o) gateway (Normal missing_reference, [])
  /\ Forall (fun v => ToBoolean v = false)
       [VNum pos_zero; VNum neg_zero; VBool false; VNull; VStr ""; VUndefined].
Proof.
  intros Hk Hr. split; [split|].
  - rewrite server_respond. apply respond_falsy_reference; [reflexivity | assumption].
  - rewrite serverless_respond_body by (assumption || reflexivity).
    apply respond_falsy_reference; [reflexivity | assumption].
  - repeat constructor.
Qed.

Lemma falsy_reference_rejected_witness :
  both_run (H := example_runtime) "sk_test"
    (VObj (list_to_map [("reference", VNum pos_zero); ("amount", VNum (of_Z 5))]))
    (fun _ => Resolved VNull) (Normal missing_reference, [])
  /\ Forall (fun v => ToBoolean v = false)
       [VNum pos_zero; VNum neg_zero; VBool false; VNull; VStr ""; VUndefined].
Proof.
  apply (falsy_reference_rejected (H := example_runtime) "sk_test"
           (list_to_map [("reference", VNum pos_zero); ("amount", VNum (of_Z 5))])
           (fun _ => Resolved VNull)).
  - discriminate.
  - reflexivity.
Defined.

(* ================================================================= *)
(** * Further properties of the handlers *)

Section Handlers.
Context `{Runtime}.

(** The serverless function, branch by branch. *)
Lemma serverless_run (env_key : option string) (req : Serverless.request)
    (gateway : axios_request -> axios_outcome) :
  run gateway (Serverless.handler env_key req)
  = if String.eqb (Serverless.method req) "OPTIONS" then (Normal preflight, [])
    else if negb (String.eqb (Serverless.method req) "POST")
    then (Normal method_not_allowed, [])
    else match credential env_key with
         | None => (Normal misconfigured, [])
         | Some key =>
             Spec.respond serverless_failure key
               (js_or (Serverless.req_body req) (VObj ∅)) gateway
         end.
Proof.
  destruct req as [m b]. cbn [Serverless.method Serverless.req_body].
  destruct (String.eqb m "OPTIONS") eqn:Eo.
  { unfold Serverless.handler. cbn [Serverless.method]. rewrite Eo. reflexivity. }
  destruct (String.eqb_spec m "POST") as [->|Hp]; cbn [negb].
  2:{ unfold Serverless.handler. cbn [Serverless.method]. rewrite Eo.
      destruct (String.eqb_spec m "POST"); [contradiction|reflexivity]. }
  destruct env_key as [[|c k]|]; try reflexivity.
  change (credential (Some (String c k))) with (Some (String c k)).
  apply (serverless_respond (String c k) b gateway). discriminate.
Qed.

Lemma respond_cases (failure : js_error -> response) (key : string)
    (b : value) (gateway : axios_request -> axios_outcome) :
  respond_case failure key b gateway (Spec.respond failure key b gateway).
Proof.
  unfold Spec.respond, destructure.
  destruct (is_nullish b) eqn:Hb; [apply case_body; assumption|].
  destruct (ToBoolean (get b "reference")) eqn:Hr; cbn [negb];
    [|apply case_reference; assumption].
  destruct (encodeURIComponent (get b "reference")) as [encoded|e] eqn:He;
    [|apply case_encoding; assumption].
  destruct (gateway (verify_request key encoded)) as [d|e] eqn:Hg;
    [|apply case_rejected; assumption].
  destruct (malformed d) eqn:Hm; [apply case_malformed with d; assumption|].
  destruct (Spec.verified_flag _ _ _) as [v|e] eqn:Hv.
  - apply case_verification; assumption.
  - apply case_thrown with d; assumption.
Qed.

End Handlers.

Section HandlerFacts.
Context `{Runtime}.

Lemma server_cases (key : string) (b : value)
    (gateway : axios_request -> axios_outcome) :
  respond_case server_failure key b gateway
    (run gateway (Server.verify_payment key b)).
Proof. rewrite server_respond. apply respond_cases. Qed.


Lemma field_data_absent (c : Z) (v e : value) :
  field (json c (object [("verified", v); ("error", e)])) "data" = VUndefined.
Proof.
  unfold field, json, object, get. simpl.
  rewrite !lookup_insert_ne by discriminate.
  rewrite lookup_empty. reflexivity.
Qed.

Lemma respond_same_fields (failure : js_error -> response) (key : string)
    (b b' : value) (gateway : axios_request -> axios_outcome) :
  is_nullish b = false ->
  is_nullish b' = false ->
  get b "reference" = get b' "reference" ->
  get b "currency" = get b' "currency" ->
  get b "amount" = get b' "amount" ->
  Spec.respond failure key b gateway = Spec.respond failure key b' gateway.
Proof.
  intros Hn Hn' Hr Hc Ha. unfold Spec.respond, destructure.
  rewrite Hn, Hn', Hr, Hc, Ha. reflexivity.
Qed.

Lemma respond_js_or_empty (failure : js_error -> response) (key : string)
    (b : value) (gateway : axios_request -> axios_outcome) :
  is_nullish b = false ->
  Spec.respond failure key (js_or b (VObj ∅)) gateway
  = Spec.respond failure key b gateway.
Proof.
  intros Hb. apply respond_same_fields; rewrite ?get_js_or_empty; try reflexivity.
  - apply is_nullish_js_or_empty.
  - exact Hb.
Qed.

(** The flag when neither optional check applies. *)
Lemma verified_flag_unchecked (amount currency tx : value) :
  is_nullish amount = true ->
  ToBoolean currency = false ->
  Spec.verified_flag amount currency tx = Normal (Spec.success_status tx).
Proof.
  intros Ha Hc. unfold Spec.verified_flag, Spec.amount_supplied,
    Spec.currency_supplied.
  rewrite Ha, Hc. cbn [negb andb]. step.
  rewrite !andb_true_r. reflexivity.
Qed.

(** The flag when the supplied currency has no [toUpperCase]. *)
Lemma verified_flag_not_a_function (amount currency tx : value) :
  Spec.amount_supplied amount = false
  \/ (exists m, Spec.amounts_match amount (get tx "amount") = Normal m) ->
  ToBoolean currency = true ->
  Spec.is_string currency = false ->
  ToBoolean (get tx "currency") = true ->
  Spec.verified_flag amount currency tx
  = Throw (TypeError (NotAFunction "currency.toUpperCase")).
Proof.
  intros Ha Hc Hs Ht. unfold Spec.verified_flag, Spec.currency_supplied,
    Spec.currency_reported.
  rewrite Hc, Ht. cbn [andb].
  destruct Ha as [-> | [m Hm]].
  - step. destruct currency; try discriminate; reflexivity.
  - rewrite Hm. destruct (Spec.amount_supplied amount); step;
      destruct currency; try discriminate; reflexivity.
Qed.

End HandlerFacts.

(** Every byte that [encodeURIComponent] escapes becomes two hexadecimal
    digits, which read back as the byte. *)
Lemma hex_digits_safe (c : ascii) :
  url_safe (hex_digit (code c / 16)) && url_safe (hex_digit (code c mod 16)) = true.
Proof. destruct c as [[] [] [] [] [] [] [] []]; vm_compute; reflexivity. Qed.

Lemma hex_digits_value (c : ascii) :
  ascii_of_N (Z.to_N (16 * hex_value (hex_digit (code c / 16))
                      + hex_value (hex_digit (code c mod 16)))) = c.
Proof. destruct c as [[] [] [] [] [] [] [] []]; vm_compute; reflexivity. Qed.

Lemma unreserved_not_percent (c : ascii) :
  unreserved (code c) = true -> Ascii.eqb c "%" = false.
Proof.
  destruct (Ascii.eqb_spec c "%") as [->|]; [|reflexivity].
  vm_compute. discriminate.
Qed.

Lemma percent_encode_safe (s : string) :
  forallb url_safe (list_ascii_of_string (percent_encode s)) = true.
Proof.
  induction s as [|c r IH]; [reflexivity|].
  cbn [percent_encode]. cbv zeta.
  destruct (unreserved (code c)) eqn:Eu.
  - cbn [list_ascii_of_string forallb]. rewrite IH.
    unfold url_safe at 1. rewrite Eu. reflexivity.
  - cbn [list_ascii_of_string forallb]. rewrite IH.
    pose proof (hex_digits_safe c) as [H1 H2]%andb_prop.
    rewrite H1, H2. reflexivity.
Qed.

Lemma percent_decode_encode (s : string) :
  percent_decode (percent_encode s) = s.
Proof.
  induction s as [|c r IH]; [reflexivity|].
  cbn [percent_encode]. cbv zeta.
  destruct (unreserved (code c)) eqn:Eu.
  - cbn [percent_decode]. rewrite (unreserved_not_percent c Eu).
    fold percent_decode.
    destruct (percent_encode r) as [|h [|l r']]; rewrite <- IH; try reflexivity.
  - cbn [percent_decode]. change (Ascii.eqb "%" "%") with true. cbv iota.
    rewrite hex_digits_value, IH. reflexivity.
Qed.

(* ================================================================= *)
(** * Further properties: the serverless function before it verifies *)

(** X1. The serverless function answers a request whose method is not
    POST without reading the credential, the body or the gateway: a
    preflight (OPTIONS) gets status 204, the three
    [Access-Control-Allow-*] headers and an empty text body; every other
    method gets status 405 and
    [{verified: false, error: "Method Not Allowed"}]. No call is made. *)
Theorem method_gate `{Runtime} (env_key : option string)
    (req : Serverless.request) (gateway : axios_request -> axios_outcome) :
  Serverless.method req <> "POST"%string ->
  run gateway (Serverless.handler env_key req)
  = (Normal (if String.eqb (Serverless.method req) "OPTIONS"
             then preflight else method_not_allowed), [])
  /\ status preflight = 204
  /\ body preflight = Text ""
  /\ headers preflight
     = [("Access-Control-Allow-Origin", "*");
        ("Access-Control-Allow-Methods", "POST, OPTIONS");
        ("Access-Control-Allow-Headers", "Content-Type")]%string
  /\ status method_not_allowed = 405
  /\ field method_not_allowed "verified" = VBool false
  /\ field method_not_allowed "error" = VStr "Method Not Allowed".
Proof.
  intros Hm. split; [|repeat split].
  rewrite serverless_run.
  destruct (String.eqb (Serverless.method req) "OPTIONS"); [reflexivity|].
  destruct (String.eqb_spec (Serverless.method req) "POST"); [contradiction|].
  reflexivity.
Qed.

Lemma method_gate_witness :
  run (fun _ => Resolved VNull)
    (Serverless.handler (H := example_runtime) None
       {| Serverless.method := "GET";
          Serverless.req_body := object [("reference", VStr "T1")] |})
  = (Normal (if String.eqb "GET" "OPTIONS" then preflight else method_not_allowed), [])
  /\ status preflight = 204
  /\ body preflight = Text ""
  /\ headers preflight
     = [("Access-Control-Allow-Origin", "*");
        ("Access-Control-Allow-Methods", "POST, OPTIONS");
        ("Access-Control-Allow-Headers", "Content-Type")]%string
  /\ status method_not_allowed = 405
  /\ field method_not_allowed "verified" = VBool false
  /\ field method_not_allowed "error" = VStr "Method Not Allowed".
Proof.
  apply (method_gate (H := example_runtime) None
           {| Serverless.method := "GET";
              Serverless.req_body := object [("reference", VStr "T1")] |}
           (fun _ => Resolved VNull)).
  discriminate.
Defined.

(** X2. Without a credential ([PAYSTACK_SECRET_KEY] unset or empty)
    nothing is verified: the server does not start, and the serverless
    function answers every POST, with or without a reference, with status
    500 and [{verified: false, error: "Server misconfiguration"}], making
    no call. With a credential the server serves [verify_payment] with
    that credential. *)
Theorem missing_credential `{Runtime} (env_key : option string) (b : value)
    (gateway : axios_request -> axios_outcome) :
  credential env_key = None ->
  Server.start env_key = None
  /\ run gateway (Serverless.handler env_key (post b)) = (Normal misconfigured, [])
  /\ status misconfigured = 500
  /\ field misconfigured "verified" = VBool false
  /\ field misconfigured "error" = VStr "Server misconfiguration"
  /\ (forall key, key <> ""%string ->
        Server.start (Some key) = Some (Server.verify_payment key)).
Proof.
  intros Hc. repeat split.
  - destruct env_key as [[|c k]|]; try reflexivity. discriminate.
  - rewrite serverless_run. cbn. rewrite Hc. reflexivity.
  - intros [|c k] Hk; [congruence | reflexivity].
Qed.

Lemma missing_credential_witness :
  Server.start (H := example_runtime) (Some ""%string) = None
  /\ run (fun _ => Resolved VNull)
       (Serverless.handler (H := example_runtime) (Some ""%string) (post VUndefined))
     = (Normal misconfigured, [])
  /\ status misconfigured = 500
  /\ field misconfigured "verified" = VBool false
  /\ field misconfigured "error" = VStr "Server misconfiguration"
  /\ (forall key, key <> ""%string ->
        Server.start (H := example_runtime) (Some key)
        = Some (Server.verify_payment (H := example_runtime) key)).
Proof.
  apply (missing_credential (H := example_runtime) (Some ""%string) VUndefined
           (fun _ => Resolved VNull)).
  reflexivity.
Defined.

(* ================================================================= *)
(** * Further properties: what every request comes to *)

(** X3. Every request is answered: whatever the body, the method, the
    credential and the behaviour of the gateway, neither handler ends in
    an exception; each makes at most one call; the server answers with
    status 200, 400 or 500, the serverless function with 200, 204, 400,
    405 or 500. *)
Theorem every_request_answered `{Runtime} (key : string) (b : value)
    (env_key : option string) (req : Serverless.request)
    (gateway : axios_request -> axios_outcome) :
  (exists r calls,
     run gateway (Server.verify_payment key b) = (Normal r, calls)
     /\ (List.length calls <= 1)%nat
     /\ In (status r) [200; 400; 500])
  /\ (exists r calls,
        run gateway (Serverless.handler env_key req) = (Normal r, calls)
        /\ (List.length calls <= 1)%nat
        /\ In (status r) [200; 204; 400; 405; 500]).
Proof.
  split.
  - destruct (server_cases key b gateway);
      eexists _, _; (split; [reflexivity|]); (split; [simpl; lia|]);
      simpl; tauto.
  - rewrite serverless_run.
    destruct (String.eqb _ "OPTIONS").
    { eexists _, _. split; [reflexivity|]. split; simpl; [lia|tauto]. }
    destruct (negb _).
    { eexists _, _. split; [reflexivity|]. split; simpl; [lia|tauto]. }
    destruct (credential env_key) as [k|].
    2:{ eexists _, _. split; [reflexivity|]. split; simpl; [lia|tauto]. }
    destruct (respond_cases serverless_failure k
                (js_or (Serverless.req_body req) (VObj ∅)) gateway);
      eexists _, _; (split; [reflexivity|]); (split; [simpl; lia|]);
      simpl; tauto.
Qed.

(** X4. The server calls the gateway only for a truthy reference, once,
    and only at the verification endpoint: the request is a GET of
    [https://api.paystack.co/transaction/verify/] followed by the encoded
    reference, which holds unreserved characters and [%XX] escapes only
    (no [/], [?] or [#]), with the header [Authorization: Bearer <key>]
    and a timeout of 10000 ms. *)
Theorem server_outbound_call `{Runtime} (key : string) (b : value)
    (gateway : axios_request -> axios_outcome)
    (x : completion response) (calls : list axios_request) (rq : axios_request) :
  run gateway (Server.verify_payment key b) = (x, calls) ->
  In rq calls ->
  calls = [rq]
  /\ ToBoolean (get b "reference") = true
  /\ exists encoded,
       encodeURIComponent (get b "reference") = Normal encoded
       /\ forallb url_safe (list_ascii_of_string encoded) = true
       /\ url rq = ("https://api.paystack.co/transaction/verify/" ++ encoded)%string
       /\ request_headers rq = [("Authorization", "Bearer " ++ key)]%string
       /\ timeout rq = 10000.
Proof.
  intros Hrun Hin.
  assert (forall encoded, encodeURIComponent (get b "reference") = Normal encoded ->
            forallb url_safe (list_ascii_of_string encoded) = true) as Hsafe.
  { intros encoded. unfold encodeURIComponent.
    destruct (ToString (get b "reference")) as [s|e]; [|discriminate].
    intros [= <-]. apply percent_encode_safe. }
  destruct (server_cases key b gateway); injection Hrun as <- <-;
    try contradiction;
    destruct Hin as [<- | []];
    (split; [reflexivity|]); (split; [assumption|]);
    exists encoded; auto 10.
Qed.

Lemma server_outbound_call_witness :
  [verify_request "sk_test" "a%2Fb"] = [verify_request "sk_test" "a%2Fb"]
  /\ ToBoolean (get (object [("reference", VStr "a/b")]) "reference") = true
  /\ exists encoded,
       encodeURIComponent (H := example_runtime)
         (get (object [("reference", VStr "a/b")]) "reference") = Normal encoded
       /\ forallb url_safe (list_ascii_of_string encoded) = true
       /\ url (verify_request "sk_test" "a%2Fb")
          = ("https://api.paystack.co/transaction/verify/" ++ encoded)%string
       /\ request_headers (verify_request "sk_test" "a%2Fb")
          = [("Authorization", "Bearer " ++ "sk_test")]%string
       /\ timeout (verify_request "sk_test" "a%2Fb") = 10000.
Proof.
  apply (server_outbound_call (H := example_runtime) "sk_test"
           (object [("reference", VStr "a/b")]) (fun _ => Resolved VNull)
           (Normal invalid_upstream) [verify_request "sk_test" "a%2Fb"]
           (verify_request "sk_test" "a%2Fb")).
  - reflexivity.
  - left. reflexivity.
Defined.

(** X5. The serverless function calls the gateway only on a POST, with
    the credential set and a truthy reference, once, and with the same
    request as the server: the verification endpoint followed by the
    encoded reference, [Authorization: Bearer <key>], timeout 10000. *)
Theorem serverless_outbound_call `{Runtime} (env_key : option string)
    (req : Serverless.request) (gateway : axios_request -> axios_outcome)
    (x : completion response) (calls : list axios_request) (rq : axios_request) :
  run gateway (Serverless.handler env_key req) = (x, calls) ->
  In rq calls ->
  calls = [rq]
  /\ Serverless.method req = "POST"%string
  /\ ToBoolean (get (Serverless.req_body req) "reference") = true
  /\ exists key encoded,
       env_key = Some key /\ key <> ""%string
       /\ encodeURIComponent (get (Serverless.req_body req) "reference")
          = Normal encoded
       /\ forallb url_safe (list_ascii_of_string encoded) = true
       /\ rq = verify_request key encoded.
Proof.
  intros Hrun Hin. rewrite serverless_run in Hrun.
  destruct (String.eqb _ "OPTIONS").
  { injection Hrun as <- <-. contradiction. }
  destruct (String.eqb_spec (Serverless.method req) "POST") as [Hm|];
    cbn [negb] in Hrun.
  2:{ injection Hrun as <- <-. contradiction. }
  destruct (credential env_key) as [k|] eqn:Hk.
  2:{ injection Hrun as <- <-. contradiction. }
  assert (env_key = Some k /\ k <> ""%string) as [-> Hne].
  { destruct env_key as [[|c k']|]; try discriminate.
    injection Hk as <-. split; [reflexivity | discriminate]. }
  assert (forall encoded,
            encodeURIComponent (get (Serverless.req_body req) "reference")
            = Normal encoded ->
            forallb url_safe (list_ascii_of_string encoded) = true) as Hsafe.
  { intros encoded. unfold encodeURIComponent.
    destruct (ToString _) as [s|e]; [|discriminate].
    intros [= <-]. apply percent_encode_safe. }
  destruct (respond_cases serverless_failure k
              (js_or (Serverless.req_body req) (VObj ∅)) gateway);
    injection Hrun as <- <-; try contradiction;
    rewrite get_js_or_empty in *;
    destruct Hin as [<- | []];
    (split; [reflexivity|]); (split; [assumption|]); (split; [assumption|]);
    exists k, encoded; auto 10.
Qed.

Lemma serverless_outbound_call_witness :
  [verify_request "sk_test" "T1"] = [verify_request "sk_test" "T1"]
  /\ Serverless.method (post (object [("reference", VStr "T1")])) = "POST"%string
  /\ ToBoolean (get (Serverless.req_body (post (object [("reference", VStr "T1")])))
                  "reference") = true
  /\ exists key encoded,
       Some "sk_test"%string = Some key /\ key <> ""%string
       /\ encodeURIComponent (H := example_runtime)
            (get (Serverless.req_body (post (object [("reference", VStr "T1")])))
               "reference")
          = Normal encoded
       /\ forallb url_safe (list_ascii_of_string encoded) = true
       /\ verify_request "sk_test" "T1" = verify_request key encoded.
Proof.
  apply (serverless_outbound_call (H := example_runtime) (Some "sk_test"%string)
           (post (object [("reference", VStr "T1")])) (fun _ => Resolved VNull)
           (Normal invalid_upstream) [verify_request "sk_test" "T1"]
           (verify_request "sk_test" "T1")).
  - reflexivity.
  - left. reflexivity.
Defined.

(** X6. A response carries [data] only with status 200, and then it is
    the [data] of the gateway's answer, unchanged, next to a boolean
    [verified]; every other answer of either handler carries no [data],
    and its [verified] is false (the preflight answer, which has no JSON
    body, apart). *)
Theorem data_only_with_200 `{Runtime} (key : string) (b : value)
    (env_key : option string) (req : Serverless.request)
    (gateway : axios_request -> axios_outcome)
    (r : response) (calls : list axios_request) :
  run gateway (Server.verify_payment key b) = (Normal r, calls)
  \/ run gateway (Serverless.handler env_key req) = (Normal r, calls) ->
  (status r = 200
   /\ exists rq d verified,
        calls = [rq] /\ gateway rq = Resolved d /\ malformed d = false
        /\ body r = Json (object [("verified", VBool verified);
                                  ("data", get d "data")]))
  \/ (status r <> 200
      /\ field r "data" = VUndefined
      /\ (field r "verified" = VBool false \/ r = preflight)).
Proof.
  assert (forall failure k b',
            (forall e, failure e = server_failure e)
            \/ (forall e, failure e = serverless_failure e) ->
            Spec.respond failure k b' gateway = (Normal r, calls) ->
            (status r = 200
             /\ exists rq d verified,
                  calls = [rq] /\ gateway rq = Resolved d /\ malformed d = false
                  /\ body r = Json (object [("verified", VBool verified);
                                            ("data", get d "data")]))
            \/ (status r <> 200
                /\ field r "data" = VUndefined
                /\ (field r "verified" = VBool false \/ r = preflight))) as Hgen.
  { intros failure k b' Hf Hrun.
    assert (forall e, status (failure e) <> 200
                      /\ field (failure e) "data" = VUndefined
                      /\ field (failure e) "verified" = VBool false) as Hfail.
    { intros e. destruct Hf as [Hf | Hf]; rewrite Hf;
        (split; [discriminate|]); split;
        first [apply field_data_absent | apply field_verified]. }
    destruct (respond_cases failure k b' gateway); injection Hrun as <- <-;
      try (right; destruct (Hfail e) as (? & ? & ?); auto; fail);
      try (right; destruct (Hfail (TypeError (CannotDestructure b'))) as (? & ? & ?);
           auto; fail);
      try (right; split; [discriminate|]; split;
           [apply field_data_absent | left; apply field_verified]; fail).
    left. split; [reflexivity|]. eexists _, d, verified. auto. }
  intros [Hrun | Hrun].
  - rewrite server_respond in Hrun. eapply Hgen; [|exact Hrun]. left. reflexivity.
  - rewrite serverless_run in Hrun.
    destruct (String.eqb _ "OPTIONS").
    { injection Hrun as <- <-. right. split; [discriminate|]. auto. }
    destruct (negb _).
    { injection Hrun as <- <-. right. split; [discriminate|]. split;
        [apply field_data_absent | left; apply field_verified]. }
    destruct (credential env_key).
    2:{ injection Hrun as <- <-. right. split; [discriminate|]. split;
        [apply field_data_absent | left; apply field_verified]. }
    eapply Hgen; [|exact Hrun]. right. reflexivity.
Qed.

Lemma data_only_with_200_witness :
  (status (verification_result false (VStr "tx")) = 200
   /\ exists rq d verified,
        [verify_request "sk_test" "T1"] = [rq]
        /\ (fun _ => Resolved (object [("data", VStr "tx")])) rq = Resolved d
        /\ malformed d = false
        /\ body (verification_result false (VStr "tx"))
           = Json (object [("verified", VBool verified); ("data", get d "data")]))
  \/ (status (verification_result false (VStr "tx")) <> 200
      /\ field (verification_result false (VStr "tx")) "data" = VUndefined
      /\ (field (verification_result false (VStr "tx")) "verified" = VBool false
          \/ verification_result false (VStr "tx") = preflight)).
Proof.
  apply (data_only_with_200 (H := example_runtime) "sk_test"
           (object [("reference", VStr "T1")]) None (post VUndefined)
           (fun _ => Resolved (object [("data", VStr "tx")]))
           (verification_result false (VStr "tx"))
           [verify_request "sk_test" "T1"]).
  left. reflexivity.
Defined.

(* ================================================================= *)
(** * Further properties: failures *)

(** X7. When the call to the gateway fails (network error, timeout, a
    status outside 2xx), both handlers answer with status 500 and
    [verified: false] after that one call. The [error] of the server is
    [err.response.data] when there is a truthy one and [err.message]
    otherwise; the serverless function answers the same, with
    "Unknown error" in place of a falsy message. *)
Theorem upstream_failure_is_500 `{Runtime} (key : string) (b : value)
    (gateway : axios_request -> axios_outcome) (encoded : string)
    (err : js_error) :
  key <> ""%string ->
  is_nullish b = false ->
  ToBoolean (get b "reference") = true ->
  encodeURIComponent (get b "reference") = Normal encoded ->
  gateway (verify_request key encoded) = Rejected err ->
  run gateway (Server.verify_payment key b)
  = (Normal (json 500 (object [("verified", VBool false);
                               ("error", failure_payload err)])),
     [verify_request key encoded])
  /\ run gateway (Serverless.handler (Some key) (post b))
     = (Normal (json 500 (object
          [("verified", VBool false);
           ("error", if ToBoolean (failure_payload err) then failure_payload err
                     else VStr "Unknown error")])),
        [verify_request key encoded])
  /\ failure_payload err
     = match err_response err with
       | Some data => if ToBoolean data then data else err_message err
       | None => err_message err
       end.
Proof.
  intros Hk Hb Hr He Hg. split; [|split].
  - rewrite server_respond. unfold Spec.respond, destructure.
    rewrite Hb, Hr, He, Hg. reflexivity.
  - rewrite serverless_respond_body by assumption.
    unfold Spec.respond, destructure. rewrite Hb, Hr, He, Hg. reflexivity.
  - unfold failure_payload, js_or. destruct (err_response err); reflexivity.
Qed.

Lemma upstream_failure_is_500_witness :
  let err := {| err_response := Some (object [("status", VBool false);
                                               ("message", VStr "Invalid key")]);
                err_message := VStr "Request failed with status code 401" |} in
  run (fun _ => Rejected err)
    (Server.verify_payment (H := example_runtime) "sk_test"
       (object [("reference", VStr "T1")]))
  = (Normal (json 500 (object [("verified", VBool false);
                               ("error", failure_payload err)])),
     [verify_request "sk_test" "T1"])
  /\ run (fun _ => Rejected err)
       (Serverless.handler (H := example_runtime) (Some "sk_test"%string)
          (post (object [("reference", VStr "T1")])))
     = (Normal (json 500 (object
          [("verified", VBool false);
           ("error", if ToBoolean (failure_payload err) then failure_payload err
                     else VStr "Unknown error")])),
        [verify_request "sk_test" "T1"])
  /\ failure_payload err
     = match err_response err with
       | Some data => if ToBoolean data then data else err_message err
       | None => err_message err
       end.
Proof.
  intros err.
  apply (upstream_failure_is_500 (H := example_runtime) "sk_test"
           (object [("reference", VStr "T1")]) (fun _ => Rejected err) "T1" err).
  - discriminate.
  - reflexivity.
  - reflexivity.
  - reflexivity.
  - reflexivity.
Defined.





(** X10. A truthy currency that is not a string (a number, [true], an
    array, an object) has no [toUpperCase]: when the gateway reports a
    currency and the amount check, if any, is settled, both handlers
    answer 500 with [verified: false] and the message of the [TypeError]
    as [error], after the call, whatever the transaction's status. *)
Theorem currency_without_toUpperCase `{Runtime} (key : string) (b : value)
    (gateway : axios_request -> axios_outcome) (encoded : string) (d : value) :
  key <> ""%string ->
  is_nullish b = false ->
  ToBoolean (get b "reference") = true ->
  encodeURIComponent (get b "reference") = Normal encoded ->
  gateway (verify_request key encoded) = Resolved d ->
  malformed d = false ->
  Spec.amount_supplied (get b "amount") = false
  \/ (exists m, Spec.amounts_match (get b "amount") (get (get d "data") "amount")
                = Normal m) ->
  ToBoolean (get b "currency") = true ->
  Spec.is_string (get b "currency") = false ->
  ToBoolean (get (get d "data") "currency") = true ->
  let message := TypeError_message (NotAFunction "currency.toUpperCase") in
  run gateway (Server.verify_payment key b)
  = (Normal (json 500 (object [("verified", VBool false);
                               ("error", VStr message)])),
     [verify_request key encoded])
  /\ run gateway (Serverless.handler (Some key) (post b))
     = (Normal (json 500 (object
          [("verified", VBool false);
           ("error", VStr (if String.eqb message "" then "Unknown error"
                           else message))])),
        [verify_request key encoded]).
Proof.
  intros Hk Hb Hr He Hg Hm Ha Hc Hs Ht message.
  pose proof (verified_flag_not_a_function _ _ _ Ha Hc Hs Ht) as Hv.
  split.
  - rewrite server_respond, (respond_resolved _ _ _ _ encoded d) by assumption.
    rewrite Hm, Hv. reflexivity.
  - rewrite serverless_respond_body by assumption.
    rewrite (respond_resolved _ _ _ _ encoded d) by assumption.
    rewrite Hm, Hv. unfold serverless_failure, TypeError.
    cbn [err_response err_message default]. unfold js_or. cbn [ToBoolean].
    fold message. destruct (String.eqb message ""); reflexivity.
Qed.

Lemma currency_without_toUpperCase_witness :
  let message := TypeError_message (Runtime := example_runtime)
                   (NotAFunction "currency.toUpperCase") in
  let b := object [("reference", VStr "T1"); ("currency", VNum (of_Z 566))] in
  let d := object [("data", object [("status", VStr "success");
                                    ("currency", VStr "NGN")])] in
  run (fun _ => Resolved d) (Server.verify_payment (H := example_runtime) "sk_test" b)
  = (Normal (json 500 (object [("verified", VBool false);
                               ("error", VStr message)])),
     [verify_request "sk_test" "T1"])
  /\ run (fun _ => Resolved d)
       (Serverless.handler (H := example_runtime) (Some "sk_test"%string) (post b))
     = (Normal (json 500 (object
          [("verified", VBool false);
           ("error", VStr (if String.eqb message "" then "Unknown error"
                           else message))])),
        [verify_request "sk_test" "T1"]).
Proof.
  intros message b d.
  apply (currency_without_toUpperCase (H := example_runtime) "sk_test" b
           (fun _ => Resolved d) "T1" d).
  - discriminate.
  - reflexivity.
  - reflexivity.
  - reflexivity.
  - reflexivity.
  - reflexivity.
  - left. reflexivity.
  - reflexivity.
  - reflexivity.
  - reflexivity.
Defined.

(* ================================================================= *)
(** * Further properties: what the verification depends on *)

(** X11. When the request supplies neither an amount ([undefined] or
    [null]) nor a truthy currency, the gateway's transaction status alone
    decides: both handlers answer 200 with [verified] true exactly when
    the status is the string "success", and with the gateway's [data],
    whatever amount and currency the transaction has. *)
Theorem status_alone_decides `{Runtime} (key : string) (b : value)
    (gateway : axios_request -> axios_outcome) (encoded : string) (d : value) :
  key <> ""%string ->
  is_nullish b = false ->
  ToBoolean (get b "reference") = true ->
  encodeURIComponent (get b "reference") = Normal encoded ->
  gateway (verify_request key encoded) = Resolved d ->
  malformed d = false ->
  is_nullish (get b "amount") = true ->
  ToBoolean (get b "currency") = false ->
  both_run key b gateway
    (Normal (json 200 (object
       [("verified", VBool (strict_eq_string (get (get d "data") "status") "success"));
        ("data", get d "data")])),
     [verify_request key encoded]).
Proof.
  intros Hk Hb Hr He Hg Hm Ha Hc. split.
  - rewrite server_respond, (respond_resolved _ _ _ _ encoded d) by assumption.
    rewrite Hm, verified_flag_unchecked by assumption. reflexivity.
  - rewrite serverless_respond_body by assumption.
    rewrite (respond_resolved _ _ _ _ encoded d) by assumption.
    rewrite Hm, verified_flag_unchecked by assumption. reflexivity.
Qed.

Lemma status_alone_decides_witness :
  let b := object [("reference", VStr "T1"); ("email", VStr "a@b.c")] in
  let d := object [("data", object [("status", VStr "success");
                                    ("amount", VStr "unknown")])] in
  both_run (H := example_runtime) "sk_test" b (fun _ => Resolved d)
    (Normal (json 200 (object
       [("verified", VBool (strict_eq_string (get (get d "data") "status") "success"));
        ("data", get d "data")])),
     [verify_request "sk_test" "T1"]).
Proof.
  intros b d.
  apply (status_alone_decides (H := example_runtime) "sk_test" b
           (fun _ => Resolved d) "T1" d).
  - discriminate.
  - reflexivity.
  - reflexivity.
  - reflexivity.
  - reflexivity.
  - reflexivity.
  - reflexivity.
  - reflexivity.
Defined.

(** X12. The handlers read [reference], [currency] and [amount] of the
    body and nothing else: two bodies that agree on these three are
    answered alike, after the same calls, by the server and, for every
    method and credential, by the serverless function. The [email] of
    the request has no effect. *)
Theorem only_three_fields_read `{Runtime} (key : string) (b b' : value)
    (gateway : axios_request -> axios_outcome) :
  is_nullish b = false ->
  is_nullish b' = false ->
  get b "reference" = get b' "reference" ->
  get b "currency" = get b' "currency" ->
  get b "amount" = get b' "amount" ->
  run gateway (Server.verify_payment key b)
  = run gateway (Server.verify_payment key b')
  /\ (forall env_key method,
        run gateway (Serverless.handler env_key
                       {| Serverless.method := method; Serverless.req_body := b |})
        = run gateway (Serverless.handler env_key
                         {| Serverless.method := method; Serverless.req_body := b' |})).
Proof.
  intros Hb Hb' Hr Hc Ha. split.
  - rewrite !server_respond. apply respond_same_fields; congruence.
  - intros env_key method. rewrite !serverless_run.
    cbn [Serverless.method Serverless.req_body].
    destruct (String.eqb method "OPTIONS"); [reflexivity|].
    destruct (negb _); [reflexivity|].
    destruct (credential env_key); [|reflexivity].
    rewrite !respond_js_or_empty by assumption.
    apply respond_same_fields; congruence.
Qed.

Lemma only_three_fields_read_witness :
  let b := object [("reference", VStr "T1"); ("email", VStr "a@b.c")] in
  let b' := object [("reference", VStr "T1"); ("email", VNum (of_Z 7));
                    ("note", VStr "x")] in
  let gateway := fun _ => Resolved (object [("data", object [("status", VStr "success")])]) in
  run gateway (Server.verify_payment (H := example_runtime) "sk_test" b)
  = run gateway (Server.verify_payment (H := example_runtime) "sk_test" b')
  /\ (forall env_key method,
        run gateway (Serverless.handler (H := example_runtime) env_key
                       {| Serverless.method := method; Serverless.req_body := b |})
        = run gateway (Serverless.handler (H := example_runtime) env_key
                         {| Serverless.method := method; Serverless.req_body := b' |})).
Proof.
  intros b b' gateway.
  apply (only_three_fields_read (H := example_runtime) "sk_test" b b' gateway).
  - reflexivity.
  - reflexivity.
  - reflexivity.
  - reflexivity.
  - reflexivity.
Defined.

(** X13. [encodeURIComponent] loses nothing: its output reads back as
    its input, so two references that differ as strings are looked up at
    different URLs. *)
Theorem distinct_references_distinct_urls (key : string) (s t : string) :
  verify_request key (percent_encode s) = verify_request key (percent_encode t) ->
  s = t.
Proof.
  unfold verify_request. intros [= Hu].
  rewrite <- (percent_decode_encode s), <- (percent_decode_encode t).
  f_equal. exact Hu.
Qed.

Lemma distinct_references_distinct_urls_witness : "a b"%string = "a b"%string.
Proof.
  apply (distinct_references_distinct_urls "sk_test" "a b" "a b"). reflexivity.
Defined.

(* ================================================================= *)
(** * The CORS policy: white space, trimming and splitting *)

Ltac split_scrutinee :=
  repeat (cbv beta iota;
          match goal with
          | |- context [match ?p with xI _ => _ | xO _ => _ | xH => _ end] =>
              is_var p; destruct p
          | |- context [match ?z with Z0 => _ | Zpos _ => _ | Zneg _ => _ end] =>
              is_var z; destruct z
          | |- context [match ?l with nil => _ | cons _ _ => _ end] =>
              is_var l; destruct l
          end).

(** [ws_head] finds a white space character at the head of the list, and
    nothing else. *)
Lemma ws_head_sound (l : list Z) :
  ws_head l <> 0%nat ->
  exists w r, In w Cors.white_space /\ l = w ++ r /\ ws_head l = List.length w.
Proof.
  destruct l as [|c r]; [intros []; reflexivity|].
  unfold ws_head.
  destruct (in_range 9 13 c || (c =? 32)) eqn:E.
  - intros _. exists [c], r.
    assert (c = 9 \/ c = 10 \/ c = 11 \/ c = 12 \/ c = 13 \/ c = 32) as Hc.
    { unfold in_range in E. lia. }
    split; [|split; reflexivity].
    simpl. intuition (subst; auto 10).
  - clear E. split_scrutinee; try (intros []; reflexivity; fail).
    all: try (intros _; eexists [_; _], _; split; [|split; reflexivity];
              simpl; auto 30; fail).
    all: try (intros _; eexists [_; _; _], _; split; [|split; reflexivity];
              simpl; auto 30; fail).
    destruct (in_range 128 138 z || existsb (Z.eqb z) [168; 169; 175]) eqn:E;
      [|intros []; reflexivity].
    intros _. exists [226; 128; z], r.
    assert (z = 128 \/ z = 129 \/ z = 130 \/ z = 131 \/ z = 132 \/ z = 133
            \/ z = 134 \/ z = 135 \/ z = 136 \/ z = 137 \/ z = 138
            \/ z = 168 \/ z = 169 \/ z = 175) as Hz.
    { unfold in_range in E. cbn [existsb] in E. lia. }
    split; [|split; reflexivity].
    simpl. intuition (subst; auto 30).
Qed.

Lemma ws_head_complete (w r : list Z) :
  In w Cors.white_space -> ws_head (w ++ r) = List.length w.
Proof.
  intros Hw. simpl in Hw.
  repeat (destruct Hw as [<- | Hw]; [reflexivity|]). contradiction.
Qed.

Lemma white_space_bytes (w : list Z) :
  In w Cors.white_space -> ~ In 44 w /\ w <> [].
Proof.
  intros Hw. simpl in Hw.
  repeat (destruct Hw as [<- | Hw];
          [split; [simpl; lia | discriminate]|]).
  contradiction.
Qed.

Lemma ws_head_removes (l : list Z) :
  ws_head l <> 0%nat -> ~ In 44 (firstn (ws_head l) l).
Proof.
  intros Hn. destruct (ws_head_sound l Hn) as (w & r & Hw & Hl & Hlen).
  rewrite Hlen. rewrite Hl at 1. rewrite firstn_app, Nat.sub_diag, firstn_all.
  cbn [firstn]. rewrite app_nil_r. apply white_space_bytes, Hw.
Qed.

(** A white space character that makes the first [k] bytes of a
    reversed text. *)
Lemma ws_tail_char (k : nat) (rl : list Z) :
  ws_head (rev (firstn k rl)) = k -> k <> 0%nat ->
  exists w, In w Cors.white_space /\ rl = rev w ++ skipn k rl /\ List.length w = k.
Proof.
  intros Hk H0.
  destruct (ws_head_sound (rev (firstn k rl)) ltac:(congruence))
    as (w & r & Hw & Hl & Hlen).
  assert (List.length w = k) as Hwk by congruence.
  pose proof (f_equal (@List.length Z) Hl) as Hll.
  rewrite length_rev, length_app in Hll.
  pose proof (firstn_le_length k rl) as Hle.
  assert (r = []) as -> by (destruct r; [reflexivity | simpl in Hll; lia]).
  rewrite app_nil_r in Hl.
  exists w. split; [exact Hw|]. split; [|exact Hwk].
  rewrite <- Hl, rev_involutive. symmetry. apply firstn_skipn.
Qed.

Lemma ws_tail_sound (rl : list Z) :
  Cors.ws_tail rl <> 0%nat ->
  exists w r, In w Cors.white_space /\ rl = rev w ++ r
              /\ Cors.ws_tail rl = List.length w.
Proof.
  unfold Cors.ws_tail.
  destruct (Nat.eqb_spec (ws_head (rev (firstn 1 rl))) 1) as [E1|_].
  { intros _. destruct (ws_tail_char 1 rl E1 ltac:(lia)) as (w & Hw & Hl & Hk).
    eauto. }
  destruct (Nat.eqb_spec (ws_head (rev (firstn 2 rl))) 2) as [E2|_].
  { intros _. destruct (ws_tail_char 2 rl E2 ltac:(lia)) as (w & Hw & Hl & Hk).
    eauto. }
  destruct (Nat.eqb_spec (ws_head (rev (firstn 3 rl))) 3) as [E3|_].
  { intros _. destruct (ws_tail_char 3 rl E3 ltac:(lia)) as (w & Hw & Hl & Hk).
    eauto. }
  intros []. reflexivity.
Qed.

Lemma ws_tail_removes (rl : list Z) :
  Cors.ws_tail rl <> 0%nat -> ~ In 44 (firstn (Cors.ws_tail rl) rl).
Proof.
  intros Hn. destruct (ws_tail_sound rl Hn) as (w & r & Hw & Hl & Hlen).
  rewrite Hlen. rewrite Hl at 1.
  rewrite <- (length_rev w), firstn_app, Nat.sub_diag, firstn_all.
  cbn [firstn]. rewrite app_nil_r, <- in_rev. apply white_space_bytes, Hw.
Qed.

(** ** Trimming *)

Lemma trim_with_removed (f : list Z -> nat) (fuel : nat) (l : list Z) :
  (forall l0, f l0 <> 0%nat -> ~ In 44 (firstn (f l0) l0)) ->
  exists p, l = p ++ trim_with f fuel l /\ ~ In 44 p.
Proof.
  intros Hf. revert l. induction fuel as [|fuel IH]; intros l.
  - exists []. split; [reflexivity | intros []].
  - cbn [trim_with]. destruct (f l) as [|n] eqn:E.
    + exists []. split; [reflexivity | intros []].
    + destruct (IH (skipn (S n) l)) as (p & Hp & Hc).
      exists (firstn (S n) l ++ p). split.
      * rewrite <- app_assoc, <- Hp. symmetry. apply firstn_skipn.
      * intros [Hin | Hin]%in_app_or; [|contradiction].
        apply (Hf l); [congruence|]. rewrite E. exact Hin.
Qed.

Lemma trim_with_settled (f : list Z -> nat) (fuel : nat) (l : list Z) :
  f [] = 0%nat -> (List.length l <= fuel)%nat -> f (trim_with f fuel l) = 0%nat.
Proof.
  intros Hnil. revert l. induction fuel as [|fuel IH]; intros l Hlen.
  - destruct l; [exact Hnil | simpl in Hlen; lia].
  - cbn [trim_with]. destruct (f l) as [|n] eqn:E; [exact E|].
    apply IH. rewrite length_skipn.
    destruct l; [congruence | simpl in *; lia].
Qed.

Lemma trim_with_fixed (f : list Z -> nat) (fuel : nat) (l : list Z) :
  f l = 0%nat -> trim_with f fuel l = l.
Proof. intros Hf. destruct fuel; cbn [trim_with]; [|rewrite Hf]; reflexivity. Qed.

(** Trimming cuts white space off both ends, and no comma with it. *)
Lemma trim_bytes_segment (l : list Z) :
  exists p q, l = p ++ Cors.trim_bytes l ++ q /\ ~ In 44 p /\ ~ In 44 q.
Proof.
  unfold Cors.trim_bytes. cbv zeta.
  destruct (trim_with_removed ws_head (List.length l) l) as (p & Hp & Hcp).
  { intros l0. apply ws_head_removes. }
  set (l1 := trim_with ws_head (List.length l) l) in *.
  destruct (trim_with_removed Cors.ws_tail (List.length l1) (rev l1))
    as (q & Hq & Hcq).
  { intros l0. apply ws_tail_removes. }
  exists p, (rev q). split; [|split].
  - rewrite <- rev_app_distr, <- Hq, rev_involutive. exact Hp.
  - exact Hcp.
  - rewrite <- in_rev. exact Hcq.
Qed.

Lemma trim_bytes_idempotent (l : list Z) :
  Cors.trim_bytes (Cors.trim_bytes l) = Cors.trim_bytes l.
Proof.
  unfold Cors.trim_bytes at 2 3. cbv zeta.
  set (l1 := trim_with ws_head (List.length l) l).
  set (r := trim_with Cors.ws_tail (List.length l1) (rev l1)).
  assert (ws_head l1 = 0%nat) as H1.
  { apply trim_with_settled; [reflexivity | lia]. }
  assert (Cors.ws_tail r = 0%nat) as Hr.
  { apply trim_with_settled; [reflexivity | rewrite length_rev; lia]. }
  destruct (trim_with_removed Cors.ws_tail (List.length l1) (rev l1))
    as (q & Hq & _).
  { intros l0. apply ws_tail_removes. }
  fold r in Hq.
  assert (l1 = rev r ++ rev q) as Hl1.
  { rewrite <- rev_app_distr, <- Hq, rev_involutive. reflexivity. }
  assert (ws_head (rev r) = 0%nat) as Hm.
  { destruct (Nat.eq_dec (ws_head (rev r)) 0%nat) as [|Hne]; [assumption|].
    destruct (ws_head_sound (rev r) Hne) as (w & t & Hw & Hl & _).
    rewrite Hl1, Hl, <- app_assoc, (ws_head_complete w _ Hw) in H1.
    destruct (white_space_bytes w Hw) as [_ Hnil].
    destruct w; [congruence | discriminate]. }
  unfold Cors.trim_bytes. cbv zeta.
  rewrite (trim_with_fixed ws_head _ (rev r) Hm), rev_involutive.
  rewrite (trim_with_fixed Cors.ws_tail _ r Hr). reflexivity.
Qed.

(** ** Texts and their bytes *)

Lemma bytes_app (s t : string) : bytes (s ++ t) = bytes s ++ bytes t.
Proof.
  unfold bytes. induction s as [|c s IH]; [reflexivity|].
  simpl. f_equal. exact IH.
Qed.

Lemma of_bytes_bytes (s : string) : Cors.of_bytes (bytes s) = s.
Proof.
  unfold Cors.of_bytes, bytes. induction s as [|c s IH]; [reflexivity|].
  cbn [list_ascii_of_string map string_of_list_ascii]. rewrite IH.
  unfold code. rewrite N2Z.id, ascii_N_embedding. reflexivity.
Qed.

Lemma bytes_of_bytes (l : list Z) :
  Forall (fun b => 0 <= b < 256) l -> bytes (Cors.of_bytes l) = l.
Proof.
  unfold Cors.of_bytes, bytes. induction 1 as [|b l Hb _ IH]; [reflexivity|].
  cbn [map string_of_list_ascii list_ascii_of_string]. rewrite IH.
  unfold code. rewrite N_ascii_embedding by lia. rewrite Z2N.id by lia.
  reflexivity.
Qed.

Lemma bytes_range (s : string) : Forall (fun b => 0 <= b < 256) (bytes s).
Proof.
  unfold bytes. induction s as [|c s IH]; constructor; [|exact IH].
  unfold code. pose proof (N_ascii_bounded c). lia.
Qed.

Lemma bytes_js_trim (s : string) :
  bytes (Cors.js_trim s) = Cors.trim_bytes (bytes s).
Proof.
  unfold Cors.js_trim. apply bytes_of_bytes.
  destruct (trim_bytes_segment (bytes s)) as (p & q & Hl & _).
  pose proof (bytes_range s) as Hr. rewrite Hl in Hr.
  apply Forall_app in Hr as [_ Hr]. apply Forall_app in Hr as [Hr _]. exact Hr.
Qed.

Lemma js_trim_idempotent (s : string) :
  Cors.js_trim (Cors.js_trim s) = Cors.js_trim s.
Proof.
  unfold Cors.js_trim at 1. rewrite bytes_js_trim, trim_bytes_idempotent.
  reflexivity.
Qed.

(** Trimming neither removes a comma nor brings one. *)
Lemma js_trim_comma (s : string) :
  In 44 (bytes (Cors.js_trim s)) <-> In 44 (bytes s).
Proof.
  rewrite bytes_js_trim.
  destruct (trim_bytes_segment (bytes s)) as (p & q & Hl & Hp & Hq).
  split.
  - intros Hin. rewrite Hl. apply in_or_app. right. apply in_or_app. left.
    exact Hin.
  - intros Hin. rewrite Hl in Hin.
    apply in_app_or in Hin as [Hin | Hin]; [contradiction|].
    apply in_app_or in Hin as [Hin | Hin]; [assumption | contradiction].
Qed.

Lemma js_trim_wildcard_no_comma (s : string) :
  Cors.js_trim s = "*"%string -> ~ In 44 (bytes s).
Proof.
  intros Hs Hin. apply js_trim_comma in Hin. rewrite Hs in Hin.
  simpl in Hin. unfold code in Hin. simpl in Hin. lia.
Qed.

Lemma js_trim_space (s : string) :
  Cors.js_trim (String " " s) = Cors.js_trim s.
Proof. reflexivity. Qed.

(** ** Splitting at commas *)

Lemma code_comma (c : ascii) : Ascii.eqb c "," = (code c =? 44).
Proof.
  destruct (Ascii.eqb_spec c ",") as [->|Hne]; [reflexivity|].
  symmetry. apply Z.eqb_neq. intros Hc. apply Hne.
  rewrite <- (ascii_N_embedding c), <- (ascii_N_embedding ",").
  f_equal. unfold code in Hc. change 44 with (Z.of_N (N_of_ascii ",")) in Hc.
  apply N2Z.inj. exact Hc.
Qed.

Lemma split_comma_not_nil (s : string) : Cors.split_comma s <> [].
Proof.
  induction s as [|c s IH]; [discriminate|].
  cbn [Cors.split_comma]. destruct (Ascii.eqb c ","); [discriminate|].
  destruct (Cors.split_comma s); discriminate.
Qed.

Lemma split_comma_free (s : string) :
  ~ In 44 (bytes s) -> Cors.split_comma s = [s].
Proof.
  induction s as [|c s IH]; [reflexivity|].
  intros Hc. cbn [Cors.split_comma]. rewrite code_comma.
  change (bytes (String c s)) with (code c :: bytes s) in Hc.
  destruct (Z.eqb_spec (code c) 44) as [E|_].
  { exfalso. apply Hc. left. exact E. }
  rewrite IH; [reflexivity|]. intros Hin. apply Hc. right. exact Hin.
Qed.

Lemma split_comma_app (s t : string) :
  ~ In 44 (bytes s) ->
  Cors.split_comma (s ++ String "," t) = s :: Cors.split_comma t.
Proof.
  induction s as [|c s IH]; [reflexivity|].
  intros Hc.
  change (String c s ++ String "," t)%string
    with (String c (s ++ String "," t)%string).
  cbn [Cors.split_comma]. rewrite code_comma.
  change (bytes (String c s)) with (code c :: bytes s) in Hc.
  destruct (Z.eqb_spec (code c) 44) as [E|_].
  { exfalso. apply Hc. left. exact E. }
  rewrite IH; [reflexivity|]. intros Hin. apply Hc. right. exact Hin.
Qed.

Lemma split_comma_entries (s p : string) :
  In p (Cors.split_comma s) -> ~ In 44 (bytes p).
Proof.
  revert p. induction s as [|c s IH]; intros p.
  - intros [<- | []]. intros [].
  - cbn [Cors.split_comma]. rewrite code_comma.
    destruct (Z.eqb_spec (code c) 44) as [E|Hne].
    + intros [<- | Hin]; [intros [] | apply IH, Hin].
    + pose proof (split_comma_not_nil s) as Hnil.
      destruct (Cors.split_comma s) as [|x xs]; [congruence|].
      intros [<- | Hin].
      * change (bytes (String c x)) with (code c :: bytes x).
        intros [E | Hin]; [congruence|]. apply (IH x); [left; reflexivity | exact Hin].
      * apply IH. right. exact Hin.
Qed.

(** ** The policy *)

Lemma ALLOWED_ORIGIN_truthy (env : option string) :
  Cors.truthy (Cors.ALLOWED_ORIGIN env) = true.
Proof.
  unfold Cors.ALLOWED_ORIGIN. destruct env as [s|]; [|reflexivity].
  destruct (Cors.truthy s) eqn:E; [exact E | reflexivity].
Qed.

Lemma truthy_true (s : string) : Cors.truthy s = true <-> s <> ""%string.
Proof.
  unfold Cors.truthy. destruct (String.eqb_spec s ""); cbn [negb]; split;
    intros; try congruence; try discriminate.
Qed.

Lemma allowedOrigins_listed (env : option string) :
  Cors.js_trim (Cors.ALLOWED_ORIGIN env) <> "*"%string ->
  Cors.allowedOrigins env
  = List.filter Cors.truthy
      (map Cors.js_trim (Cors.split_comma (Cors.ALLOWED_ORIGIN env))).
Proof.
  intros Hw. unfold Cors.allowedOrigins. rewrite ALLOWED_ORIGIN_truthy.
  destruct (String.eqb_spec (Cors.js_trim (Cors.ALLOWED_ORIGIN env)) "*");
    [contradiction | reflexivity].
Qed.

Lemma allowedOrigins_wildcard (env : option string) :
  Cors.js_trim (Cors.ALLOWED_ORIGIN env) = "*"%string ->
  Cors.allowedOrigins env = [].
Proof.
  intros Hw. unfold Cors.allowedOrigins. rewrite Hw, andb_false_r. reflexivity.
Qed.

(** The answer to a request that names its origin. *)
Lemma origin_named (env : option string) (o : string) :
  o <> ""%string ->
  Cors.origin env (Some o)
  = if String.eqb (Cors.js_trim (Cors.ALLOWED_ORIGIN env)) "*"
       || existsb (String.eqb o) (Cors.allowedOrigins env)
    then Cors.Allow
    else Cors.Deny ("CORS policy: Origin " ++ o ++ " is not allowed").
Proof.
  intros Ho. unfold Cors.origin.
  apply truthy_true in Ho. rewrite Ho, ALLOWED_ORIGIN_truthy. cbn [negb andb].
  destruct (String.eqb (Cors.js_trim (Cors.ALLOWED_ORIGIN env)) "*");
    [reflexivity|]. cbn [orb].
  destruct (Cors.allowedOrigins env) as [|x xs]; reflexivity.
Qed.

Lemma existsb_eqb_In (o : string) (l : list string) :
  existsb (String.eqb o) l = true <-> In o l.
Proof.
  rewrite existsb_exists. split.
  - intros (x & Hin & ->%String.eqb_eq). exact Hin.
  - intros Hin. exists o. split; [exact Hin | apply String.eqb_refl].
Qed.

Lemma join_comma_split (sep : string) (os : list string) :
  sep = ","%string \/ sep = ", "%string ->
  os <> [] ->
  Forall Cors.listable os ->
  map Cors.js_trim (Cors.split_comma (Cors.join sep os)) = os.
Proof.
  intros Hsep Hnil Hos.
  induction Hos as [|o r Ho Hr IH]; [congruence|].
  destruct Ho as (Hne & Hc & Ht).
  destruct r as [|o2 r'].
  - cbn [Cors.join]. rewrite split_comma_free by assumption.
    cbn [map]. rewrite Ht. reflexivity.
  - specialize (IH ltac:(discriminate)).
    change (Cors.join sep (o :: o2 :: r'))
      with (o ++ sep ++ Cors.join sep (o2 :: r'))%string.
    destruct Hsep as [-> | ->].
    + change ("," ++ Cors.join "," (o2 :: r'))%string
        with (String "," (Cors.join "," (o2 :: r'))).
      rewrite split_comma_app by assumption.
      cbn [map]. rewrite Ht, IH. reflexivity.
    + change (", " ++ Cors.join ", " (o2 :: r'))%string
        with (String "," (String " " (Cors.join ", " (o2 :: r')))).
      rewrite split_comma_app by assumption.
      cbn [map]. rewrite Ht. f_equal.
      pose proof (split_comma_not_nil (Cors.join ", " (o2 :: r'))) as Hs.
      cbn [Cors.split_comma]. change (Ascii.eqb " " ",") with false. cbv iota.
      remember (Cors.split_comma (Cors.join ", " (o2 :: r'))) as L eqn:EL.
      destruct L as [|x xs]; [congruence|].
      cbn [map] in IH |- *. rewrite js_trim_space. exact IH.
Qed.

Lemma join_comma_in (sep : string) (o o2 : string) (r : list string) :
  sep = ","%string \/ sep = ", "%string ->
  In 44 (bytes (Cors.join sep (o :: o2 :: r))).
Proof.
  intros Hsep.
  change (Cors.join sep (o :: o2 :: r))
    with (o ++ sep ++ Cors.join sep (o2 :: r))%string.
  rewrite !bytes_app. apply in_or_app. right. apply in_or_app. left.
  destruct Hsep as [-> | ->]; left; reflexivity.
Qed.

Lemma join_not_empty (sep : string) (o : string) (r : list string) :
  o <> ""%string -> Cors.join sep (o :: r) <> ""%string.
Proof.
  intros Ho. destruct r as [|o2 r]; [exact Ho|].
  change (Cors.join sep (o :: o2 :: r))
    with (o ++ sep ++ Cors.join sep (o2 :: r))%string.
  destruct o; [congruence | discriminate].
Qed.

Lemma filter_truthy_listable (os : list string) :
  Forall Cors.listable os -> List.filter Cors.truthy os = os.
Proof.
  induction 1 as [|o r (Hne & _) _ IH]; [reflexivity|].
  cbn [List.filter]. apply truthy_true in Hne. rewrite Hne, IH. reflexivity.
Qed.

(* ================================================================= *)
(** * Further properties: the CORS policy of the server *)

(** X14. The [origin] function allows a request exactly when it has no
    [Origin] header (or an empty one), or [ALLOWED_ORIGIN] trimmed is
    [*], or the origin is, byte for byte, one of the comma-separated
    entries of [ALLOWED_ORIGIN], each trimmed; the tests
    [ALLOWED_ORIGIN &&] and [allowedOrigins.length &&] change nothing.
    Any other request is denied with the error
    [CORS policy: Origin <origin> is not allowed]. *)
Theorem origin_decision (env : option string) (header : option string) :
  (Cors.origin env header = Cors.Allow
   <-> header = None \/ header = Some ""%string
       \/ Cors.js_trim (Cors.ALLOWED_ORIGIN env) = "*"%string
       \/ exists o, header = Some o
                    /\ In o (map Cors.js_trim
                               (Cors.split_comma (Cors.ALLOWED_ORIGIN env))))
  /\ (forall o, header = Some o ->
        Cors.origin env header = Cors.Allow
        \/ Cors.origin env header
           = Cors.Deny ("CORS policy: Origin " ++ o ++ " is not allowed")).
Proof.
  destruct header as [o|].
  2:{ split; [split; auto | discriminate]. }
  destruct (String.eqb_spec o "") as [->|Ho].
  { split; [split; auto | intros o _; left; reflexivity]. }
  rewrite (origin_named env o Ho).
  destruct (String.eqb_spec (Cors.js_trim (Cors.ALLOWED_ORIGIN env)) "*")
    as [Hw|Hw]; cbn [orb].
  { split; [split; auto | intros o' _; left; reflexivity]. }
  rewrite (allowedOrigins_listed env Hw).
  destruct (existsb _ _) eqn:E.
  - apply existsb_eqb_In, filter_In in E as [Hin _].
    split; [split; eauto 6 | intros o' _; left; reflexivity].
  - split; [|intros o' [= <-]; right; reflexivity].
    split; [discriminate|].
    intros [H0 | [H0 | [H0 | (o' & [= <-] & Hin)]]]; try congruence.
    assert (existsb (String.eqb o)
              (List.filter Cors.truthy
                 (map Cors.js_trim (Cors.split_comma (Cors.ALLOWED_ORIGIN env))))
            = true) as E'.
    { apply existsb_eqb_In, filter_In. split; [exact Hin|].
      apply truthy_true, Ho. }
    congruence.
Qed.

(** X15. The policy is open by default: with [ALLOWED_ORIGIN] unset or
    empty, or set to [*] with or without white space around it, no
    origin is listed and every request is allowed, whatever its origin. *)
Theorem open_by_default (env : option string) (header : option string) :
  env = None \/ env = Some ""%string
  \/ (exists s, env = Some s /\ Cors.js_trim s = "*"%string) ->
  Cors.origin env header = Cors.Allow /\ Cors.allowedOrigins env = [].
Proof.
  intros Henv.
  assert (Cors.js_trim (Cors.ALLOWED_ORIGIN env) = "*"%string) as Hw.
  { destruct Henv as [-> | [-> | (s & -> & Hs)]]; try reflexivity.
    unfold Cors.ALLOWED_ORIGIN.
    destruct (Cors.truthy s); [exact Hs | reflexivity]. }
  split; [|apply allowedOrigins_wildcard, Hw].
  destruct header as [o|]; [|reflexivity].
  destruct (String.eqb_spec o "") as [->|Ho]; [reflexivity|].
  rewrite (origin_named env o Ho), Hw. reflexivity.
Qed.

Lemma open_by_default_witness :
  Cors.origin (Some " * "%string) (Some "https://shop.example"%string) = Cors.Allow
  /\ Cors.allowedOrigins (Some " * "%string) = [].
Proof.
  apply (open_by_default (Some " * "%string) (Some "https://shop.example"%string)).
  right. right. exists " * "%string. split; reflexivity.
Defined.

(** X16. A list of origins written with [,] or [, ] between them is read
    back as that list: when each origin is not empty, has no comma and no
    white space around it, and the list is not the wildcard alone,
    [allowedOrigins] is the list, and a request that names its origin is
    allowed exactly when the origin is in the list. *)
Theorem listed_origins (sep : string) (os : list string) (o : string) :
  sep = ","%string \/ sep = ", "%string ->
  os <> [] ->
  Forall Cors.listable os ->
  os <> ["*"%string] ->
  o <> ""%string ->
  Cors.allowedOrigins (Some (Cors.join sep os)) = os
  /\ (Cors.origin (Some (Cors.join sep os)) (Some o) = Cors.Allow <-> In o os).
Proof.
  intros Hsep Hnil Hos Hstar Ho.
  destruct os as [|o1 r]; [congruence|].
  assert (Cors.ALLOWED_ORIGIN (Some (Cors.join sep (o1 :: r)))
          = Cors.join sep (o1 :: r)) as HA.
  { unfold Cors.ALLOWED_ORIGIN.
    assert (Cors.truthy (Cors.join sep (o1 :: r)) = true) as ->; [|reflexivity].
    apply truthy_true, join_not_empty.
    apply Forall_inv in Hos. apply Hos. }
  assert (Cors.js_trim (Cors.join sep (o1 :: r)) <> "*"%string) as Hw.
  { destruct r as [|o2 r].
    - cbn [Cors.join]. apply Forall_inv in Hos as (_ & _ & Ht).
      rewrite Ht. congruence.
    - intros Hs. apply js_trim_wildcard_no_comma in Hs.
      apply Hs, join_comma_in, Hsep. }
  assert (Cors.allowedOrigins (Some (Cors.join sep (o1 :: r))) = o1 :: r) as Hl.
  { rewrite allowedOrigins_listed by (rewrite HA; exact Hw).
    rewrite HA, join_comma_split by assumption.
    apply filter_truthy_listable, Hos. }
  split; [exact Hl|].
  rewrite (origin_named _ o Ho), HA, Hl.
  destruct (String.eqb_spec (Cors.js_trim (Cors.join sep (o1 :: r))) "*");
    [contradiction|]. cbn [orb].
  rewrite <- existsb_eqb_In.
  destruct (existsb (String.eqb o) (o1 :: r)); split; congruence.
Qed.

Lemma listed_origins_witness :
  Cors.allowedOrigins
    (Some (Cors.join ", " ["https://shop.example"; "http://localhost:3000"]%string))
  = ["https://shop.example"; "http://localhost:3000"]%string
  /\ (Cors.origin
        (Some (Cors.join ", " ["https://shop.example"; "http://localhost:3000"]%string))
        (Some "http://localhost:3000"%string) = Cors.Allow
      <-> In "http://localhost:3000"%string
            ["https://shop.example"; "http://localhost:3000"]%string).
Proof.
  apply (listed_origins ", " ["https://shop.example"; "http://localhost:3000"]%string
           "http://localhost:3000").
  - right. reflexivity.
  - discriminate.
  - constructor; [|constructor; [|constructor]];
      (split; [discriminate|]);
      (split; [vm_compute; intuition discriminate | vm_compute; reflexivity]).
  - discriminate.
  - discriminate.
Defined.

(** X17. Every entry of [allowedOrigins] is in normal form: it is not
    empty, it holds no comma, and trimming it again changes nothing. *)
Theorem allowed_entries_listable (env : option string) (e : string) :
  In e (Cors.allowedOrigins env) -> Cors.listable e.
Proof.
  intros Hin.
  destruct (String.eqb_spec (Cors.js_trim (Cors.ALLOWED_ORIGIN env)) "*")
    as [Hw|Hw].
  { rewrite (allowedOrigins_wildcard env Hw) in Hin. contradiction. }
  rewrite (allowedOrigins_listed env Hw) in Hin.
  apply filter_In in Hin as [Hin Ht].
  apply in_map_iff in Hin as (p & <- & Hp).
  split; [apply truthy_true, Ht|]. split.
  - rewrite js_trim_comma. apply (split_comma_entries _ _ Hp).
  - apply js_trim_idempotent.
Qed.

Lemma allowed_entries_listable_witness : Cors.listable "https://shop.example".
Proof.
  apply (allowed_entries_listable
           (Some " https://shop.example ,,http://localhost:3000"%string)
           "https://shop.example").
  left. reflexivity.
Defined.

(* ================================================================= *)
(** * Further properties: whole-number amounts *)

(** [Math.round] leaves a whole number as it is. *)
Lemma Math_round_of_Z_eq (A : Z) :
  0 <= A < 2 ^ 53 -> Math_round (of_Z A) = of_Z A.
Proof.
  intros HA. destruct (Z.eq_dec A 0) as [->|Hne]; [reflexivity|].
  assert (Qfloor (Qval (of_Z A) + (1 # 2)) = A) as Hfl.
  { apply Qfloor_unique; rewrite Qval_of_Z_small by lia.
    - lra.
    - rewrite inject_Z_plus. change (inject_Z 1) with 1%Q. lra. }
  pose proof (of_Z_small A ltac:(lia)) as Hf.
  destruct (of_Z A) as [s|s| |s m e] eqn:E; try discriminate.
  unfold Math_round. rewrite Hfl.
  destruct (Z.eqb_spec A 0); [contradiction | exact E].
Qed.

(** Whole numbers below [2 ^ 53] are equal as Numbers only when they are
    equal. *)
Lemma strict_eq_of_Z (A B : Z) :
  0 <= A < 2 ^ 53 -> 0 <= B < 2 ^ 53 ->
  strict_eq (of_Z A) (of_Z B) = (A =? B).
Proof.
  intros HA HB. destruct (Z.eqb_spec A B) as [<-|Hne].
  { apply strict_eq_refl, of_Z_not_nan. }
  destruct (Z.eq_dec A 0) as [->|HA0].
  { rewrite (of_Z_small B) by lia. reflexivity. }
  destruct (Z.eq_dec B 0) as [->|HB0].
  { rewrite (of_Z_small A) by lia. reflexivity. }
  rewrite (of_Z_small A), (of_Z_small B) by lia.
  unfold strict_eq, SFeqb, SFcompare.
  destruct (Z.compare_spec (Zdigits2 A - 53) (Zdigits2 B - 53)) as [Hd|Hd|Hd];
    try reflexivity.
  assert (Zdigits2 A = Zdigits2 B) as Hd' by lia. rewrite Hd'.
  assert (0 < Zdigits2 B <= 53) as HdB.
  { split; [destruct B; simpl; lia|]. apply Zdigits2_le; lia. }
  pose proof (Z.pow_pos_nonneg 2 (53 - Zdigits2 B) ltac:(lia) ltac:(lia)) as Hp.
  change (Pos.compare_cont Eq ?x ?y) with (Pos.compare x y).
  destruct (Pos.compare_spec (Z.to_pos (A * 2 ^ (53 - Zdigits2 B)))
              (Z.to_pos (B * 2 ^ (53 - Zdigits2 B)))) as [E|E|E];
    try reflexivity.
  apply (f_equal Z.pos) in E. rewrite !Z2Pos.id in E by nia. nia.
Qed.

(** A whole number times 100 is computed exactly as long as the product
    is below [2 ^ 53]. *)
Lemma mul_100_exact (c : Z) :
  0 < c -> 100 * c < 2 ^ 53 -> mul (of_Z c) (of_Z 100) = of_Z (100 * c).
Proof.
  intros Hc Hb.
  set (d := Zdigits2 c).
  assert (0 < d <= 47) as Hd.
  { split; [subst d; destruct c; simpl; lia|]. apply Zdigits2_le; lia. }
  pose proof (Zdigits2_bounds c Hc) as Hcb. fold d in Hcb.
  set (P := 2 ^ (d - 1)) in *.
  set (t := 2 ^ (47 - d)).
  assert (0 < P) as HP by (apply Z.pow_pos_nonneg; lia).
  assert (0 < t) as Ht by (apply Z.pow_pos_nonneg; lia).
  assert (2 ^ d = 2 * P) as E1.
  { subst P. rewrite <- Z.pow_succ_r by lia. f_equal. lia. }
  assert (P * t = 2 ^ 46) as E2.
  { subst P t. rewrite <- Z.pow_add_r by lia. f_equal. lia. }
  assert (2 ^ (53 - d) = 64 * t) as E3.
  { subst t. replace (53 - d) with (6 + (47 - d)) by lia.
    rewrite Z.pow_add_r by lia. reflexivity. }
  rewrite E1 in Hcb.
  rewrite (of_Z_small c) by lia. fold d. rewrite E3.
  rewrite mul_100_pack; [| nia | lia].
  destruct (Z.ltb_spec (c * (64 * t) * 25) (2 ^ 57)) as [Hk|Hk].
  - rewrite (rne_exact _ _ (100 * c * t)) by (unfold m100; lia).
    assert (Zdigits2 (100 * c) = d + 6) as Hd'.
    { apply Zdigits2_unique; [|lia].
      replace (d + 6 - 1) with (d - 1 + 6) by lia.
      replace (d + 6) with (d - 1 + 7) by lia.
      rewrite !Z.pow_add_r by lia. fold P. nia. }
    rewrite (of_Z_small (100 * c)) by lia. rewrite Hd'.
    replace (53 - (d + 6)) with (47 - d) by lia. fold t.
    rewrite pack_finite; [f_equal; lia | unfold prec; nia | unfold emax, prec; lia].
  - assert (d <= 46) as Hd46.
    { destruct (Z.eq_dec d 47) as [E|]; [|lia].
      exfalso. unfold t in *. rewrite E in *. change (2 ^ (47 - 47)) with 1 in *.
      lia. }
    set (t' := 2 ^ (46 - d)).
    assert (0 < t') as Ht' by (apply Z.pow_pos_nonneg; lia).
    assert (t = 2 * t') as E4.
    { subst t t'. rewrite <- Z.pow_succ_r by lia. f_equal. lia. }
    rewrite (rne_exact _ _ (100 * c * t')) by (unfold m100; lia).
    assert (Zdigits2 (100 * c) = d + 7) as Hd'.
    { apply Zdigits2_unique; [|lia].
      replace (d + 7 - 1) with (d - 1 + 7) by lia.
      replace (d + 7) with (d - 1 + 8) by lia.
      rewrite !Z.pow_add_r by lia. fold P. nia. }
    rewrite (of_Z_small (100 * c)) by lia. rewrite Hd'.
    replace (53 - (d + 7)) with (46 - d) by lia. fold t'.
    rewrite pack_finite; [f_equal; lia | unfold prec; nia | unfold emax, prec; lia].
Qed.

(** X18. On whole numbers [amountsMatch] accepts two gateway amounts and
    no other: a client amount [c] (with [100 * c] below [2 ^ 53]) matches
    the gateway amount [A] exactly when [A] is [c] or [100 * c]. The same
    client amount thus passes against a transaction of that many
    smallest units and against one a hundred times larger. *)
Theorem whole_amounts_match_twice `{Runtime} (c A : Z) :
  0 <= c -> 100 * c < 2 ^ 53 -> 0 <= A < 2 ^ 53 ->
  Server.amountsMatch (VNum (of_Z c)) (VNum (of_Z A))
  = Normal ((A =? c) || (A =? 100 * c))
  /\ Serverless.amountsMatch (VNum (of_Z c)) (VNum (of_Z A))
     = Normal ((A =? c) || (A =? 100 * c)).
Proof.
  intros Hc Hb HA.
  assert (Server.amountsMatch (VNum (of_Z c)) (VNum (of_Z A))
          = Normal ((A =? c) || (A =? 100 * c))) as Hs; [|split; exact Hs].
  unfold Server.amountsMatch. cbn [is_nullish Number]. step.
  rewrite of_Z_not_nan, Math_round_of_Z_eq by lia.
  assert (Math_round (mul (of_Z c) (of_Z 100)) = of_Z (100 * c)) as ->.
  { destruct (Z.eq_dec c 0) as [->|Hne]; [reflexivity|].
    rewrite mul_100_exact by lia. apply Math_round_of_Z_eq. lia. }
  rewrite !strict_eq_of_Z by lia.
  destruct (A =? c), (A =? 100 * c); reflexivity.
Qed.

Lemma whole_amounts_match_twice_witness :
  Server.amountsMatch (H := example_runtime) (VNum (of_Z 750)) (VNum (of_Z 75000))
  = Normal ((75000 =? 750) || (75000 =? 100 * 750))
  /\ Serverless.amountsMatch (H := example_runtime)
       (VNum (of_Z 750)) (VNum (of_Z 75000))
     = Normal ((75000 =? 750) || (75000 =? 100 * 750)).
Proof.
  apply (whole_amounts_match_twice (H := example_runtime) 750 75000); lia.
Defined.


